(** * LedWorm: a rainbow worm on an APA102 LED strip

    A shallow embedding of [src/LedWorm.ino] and the proofs of its
    specification.  The sketch runs on an Arduino Micro (AVR), where
    [int] is a 16-bit two's complement integer, [uint8_t] and [uint32_t]
    are 8- and 32-bit unsigned integers, and [%] and [/] truncate
    towards zero.  Machine integers are modelled as [Z] with the
    wrap-around of every operation written out.  The hardware is the
    input and the output of the model: what [analogRead] returns is an
    argument of the functions that call it, and what [FastLED.show]
    displays is the array [leds].  Doubles are modelled as the real
    numbers they denote; [pow] of the C library and the rounding of the
    floating-point operations are parameters of [reverse_and_expo] and
    of [loop], and the theorem on the trigger level states what it
    assumes of them. *)

From Stdlib Require Import ZArith List Lia Bool Reals Lra.
From stdpp Require Import base list.
Import ListNotations.

Local Open Scope Z_scope.

(** ** Machine integers *)

(** The value an [int] variable holds after it is assigned [z]. *)
Definition int_wrap (z : Z) : Z := (z + 32768) mod 65536 - 32768.

(** The value a [uint8_t] variable holds after it is assigned [z]. *)
Definition uint8_wrap (z : Z) : Z := z mod 256.

(** The value a [uint32_t] variable holds after it is assigned [z]. *)
Definition uint32_wrap (z : Z) : Z := z mod 4294967296.

(** [abs] of stdlib.h on an [int]. *)
Definition c_abs (value : Z) : Z := int_wrap (Z.abs value).

(** ** Constants of the sketch *)

Definition NUM_LEDS : Z := 144.
Definition NUM_RAINBOW_LEDS : Z := 12.
Definition MAX_INTENSITY : Z := 30.
Definition MEDIUM_INTENSITY : Z := MAX_INTENSITY ÷ 4.

(** The top of the span of both readers ([steps_reader] and
    [color_reader] are built with 1023), which is also the largest value
    [analogRead] returns. *)
Definition ceiling : Z := 1023.

(** The width of the dead zone, the literal of the test
    [abs(value) < 32]. *)
Definition DEADBAND : Z := 32.

(** ** Direction and speed *)

(** [set_direction_and_speed value direction speed]: the two reference
    parameters are returned as a pair [(direction, speed)]. *)
Definition set_direction_and_speed (value : Z) : Z * Z :=
  (* [0, 1023] -> [-512, 511] *)
  let value := int_wrap (value - 512) in
  (* Apply deadband to help center the pots. *)
  let value := if c_abs value <? 32 then 0 else value in
  let direction :=
    if value <? 0 then 1
    else if value >? 0 then -1
    else 0 in
  (direction, c_abs value).

(** Decoding the adjusted sample of a channel. *)
Definition direction_of (value : Z) : Z := fst (set_direction_and_speed value).
Definition speed_of (value : Z) : Z := snd (set_direction_and_speed value).

(** ** Arrays *)

(** C arrays are lists indexed by a machine integer.  An access outside
    the array is undefined in C; here a read returns the default and a
    write leaves the array as it is. *)
Definition aget {A} (d : A) (a : list A) (i : Z) : A :=
  if i <? 0 then d else default d (a !! Z.to_nat i).

Definition aset {A} (a : list A) (i : Z) (x : A) : list A :=
  if i <? 0 then a else <[Z.to_nat i := x]> a.

(** [for (i = 0; i < n; i++) body], on the state [s]. *)
Definition for_upto {S} (n : nat) (body : Z -> S -> S) (s : S) : S :=
  fold_left (fun s i => body (Z.of_nat i) s) (seq 0 n) s.

(** ** The auto-calibrating reader *)

Record AnalogReader : Type := mkAnalogReader {
  _pin : Z;   (* The analog pin to read. *)
  _top : Z;   (* The top of the span that will be returned [0, top]. *)
  _min : Z;   (* The range of the seen values. *)
  _max : Z
}.

Definition AnalogReader_new (pin top : Z) : AnalogReader :=
  {| _pin := pin; _top := top; _min := 1023; _max := 0 |}.

(** [get_value]: [sample] is what [analogRead(_pin)] returns in this
    call.  The product is computed in [uint32_t]: both [relative] and
    [range] are converted to it, and the quotient is converted back to
    [int] by the assignment. *)
Definition get_value (sample : Z) (r : AnalogReader) : Z * AnalogReader :=
  let value := sample in
  (* Record new min and max values. *)
  let min' := if value <? _min r then value else _min r in
  let max' := if value >? _max r then value else _max r in
  let range := int_wrap (max' - min') in
  (* How far within the range the value lies. *)
  let relative := int_wrap (value - min') in
  let value :=
    if range =? 0 then _top r
    else int_wrap
           (uint32_wrap (uint32_wrap (_top r) * uint32_wrap relative)
              ÷ uint32_wrap range) in
  (value, {| _pin := _pin r; _top := _top r; _min := min'; _max := max' |}).

(** Successive calls of [get_value], one per sample. *)
Fixpoint get_values (samples : list Z) (r : AnalogReader)
  : list Z * AnalogReader :=
  match samples with
  | [] => ([], r)
  | s :: samples =>
      let '(v, r) := get_value s r in
      let '(vs, r) := get_values samples r in
      (v :: vs, r)
  end.

(** What holds of a reader of span 1023 between two calls: the recorded
    bounds are raw values. *)
Definition reader_ok (r : AnalogReader) : Prop :=
  _top r = 1023 /\ 0 <= _min r <= 1023 /\ 0 <= _max r <= 1023.

(** The interpolation of the specification, over unbounded integers:
    the observed bounds [(lo, hi)] are widened to include the sample,
    then [output = ceiling * (sample - min) / (max - min)], and
    [ceiling] when [min = max]. *)
Definition normalize_exact (top : Z) (bounds : Z * Z) (sample : Z)
  : Z * (Z * Z) :=
  let lo := Z.min (fst bounds) sample in
  let hi := Z.max (snd bounds) sample in
  (if hi =? lo then top else top * (sample - lo) / (hi - lo), (lo, hi)).

Fixpoint normalize_all_exact (top : Z) (bounds : Z * Z) (samples : list Z)
  : list Z :=
  match samples with
  | [] => []
  | s :: samples =>
      let '(v, bounds) := normalize_exact top bounds s in
      v :: normalize_all_exact top bounds samples
  end.

(** ** Settings *)

Record Settings : Type := mkSettings {
  steps_direction : Z;
  steps_speed : Z;
  color_direction : Z;
  color_speed : Z
}.

(** [Settings::get_settings], on the two readers; [movement_sample] and
    [color_sample] are the raw samples of the two pots, read in this
    order. *)
Definition get_settings (movement_sample color_sample : Z)
  (steps_reader color_reader : AnalogReader)
  : Settings * AnalogReader * AnalogReader :=
  (* Read the pot values. *)
  let '(movement, steps_reader) := get_value movement_sample steps_reader in
  let '(color, color_reader) := get_value color_sample color_reader in
  (* Convert the values into suitable directions and speed values. *)
  let '(sd, ss) := set_direction_and_speed movement in
  let '(cd, cs) := set_direction_and_speed color in
  ({| steps_direction := sd; steps_speed := ss;
      color_direction := cd; color_speed := cs |},
   steps_reader, color_reader).

(** ** The animation state *)

Record State : Type := mkState {
  start_led : Z;
  color_index : Z
}.

Definition step_leds (settings : Settings) (s : State) : State :=
  if steps_direction settings >? 0 then
    let start_led := int_wrap (start_led s + 1) in
    let start_led := Z.rem start_led NUM_LEDS in
    {| start_led := start_led; color_index := color_index s |}
  else if steps_direction settings <? 0 then
    let start_led := int_wrap (start_led s - 1) in
    let start_led := int_wrap (start_led + NUM_LEDS) in
    let start_led := Z.rem start_led NUM_LEDS in
    {| start_led := start_led; color_index := color_index s |}
  else
    (* Stand still. *)
    s.

Definition step_color (settings : Settings) (s : State) : State :=
  if color_direction settings >? 0 then
    let color_index := int_wrap (color_index s + 1) in
    let color_index := Z.rem color_index NUM_RAINBOW_LEDS in
    {| start_led := start_led s; color_index := color_index |}
  else if color_direction settings <? 0 then
    let color_index := int_wrap (color_index s - 1) in
    let color_index := int_wrap (color_index + NUM_RAINBOW_LEDS) in
    let color_index := Z.rem color_index NUM_RAINBOW_LEDS in
    {| start_led := start_led s; color_index := color_index |}
  else
    (* LEDs don't shift. *)
    s.

(** ** The counting trigger *)

Record CountTrigger : Type := mkCountTrigger {
  _counter : Z;
  _level : Z
}.

Definition CountTrigger_new : CountTrigger :=
  {| _counter := 0; _level := 0 |}.

Definition set_trigger_level (level : Z) (t : CountTrigger) : CountTrigger :=
  {| _counter := _counter t; _level := uint32_wrap level |}.

(** Count up and return true iff the counter overflowed. *)
Definition tick (t : CountTrigger) : bool * CountTrigger :=
  let counter := uint32_wrap (_counter t + 1) in
  if counter >=? _level t then
    (true, {| _counter := 0; _level := _level t |})
  else
    (false, {| _counter := counter; _level := _level t |}).

(** The trigger after [n] calls of [tick]. *)
Fixpoint tick_n (n : nat) (t : CountTrigger) : CountTrigger :=
  match n with
  | O => t
  | S n => tick_n n (snd (tick t))
  end.

(** What call number [k] of [tick] returns, counting from 1. *)
Definition fires_at (k : nat) (t : CountTrigger) : bool :=
  fst (tick (tick_n (Nat.pred k) t)).

(** ** Floating point *)

(** The conversion of a [double] to an [int] truncates towards zero;
    doubles are modelled as the real numbers they denote. *)
Definition int_of_double (x : R) : Z :=
  int_wrap (if Rle_dec 0 x then Int_part x else - Int_part (- x)).

(** ** The color tables and the strip *)

(** A pixel of FastLED. *)
Record CRGB : Type := RGB {
  red_of : Z;
  green_of : Z;
  blue_of : Z
}.

Definition Black : CRGB := RGB 0 0 0.

Definition intensity_progression : list Z := [
  MEDIUM_INTENSITY;
  MAX_INTENSITY;
  MAX_INTENSITY;
  MAX_INTENSITY;
  MAX_INTENSITY;
  MAX_INTENSITY;
  MEDIUM_INTENSITY;
  0;
  0;
  0;
  0;
  0
].

(** The globals of the sketch and the statics of [loop]. *)
Record World : Type := mkWorld {
  leds : list CRGB;
  green : list Z;
  red : list Z;
  blue : list Z;
  steps_reader : AnalogReader;
  color_reader : AnalogReader;
  state : State;
  steps_trigger : CountTrigger;
  color_trigger : CountTrigger
}.

(** The program image before [setup]: arrays and statics are zeroed,
    the readers and the triggers are constructed. *)
Definition World_init : World :=
  {| leds := repeat Black (Z.to_nat NUM_LEDS);
     green := repeat 0 (Z.to_nat NUM_RAINBOW_LEDS);
     red := repeat 0 (Z.to_nat NUM_RAINBOW_LEDS);
     blue := repeat 0 (Z.to_nat NUM_RAINBOW_LEDS);
     steps_reader := AnalogReader_new 1 1023;
     color_reader := AnalogReader_new 0 1023;
     state := {| start_led := 0; color_index := 0 |};
     steps_trigger := CountTrigger_new;
     color_trigger := CountTrigger_new |}.

(** The body of the loop of [setup] that fills the three tables, which
    are carried as a triple [(green, red, blue)]. *)
Definition setup_colors_body (shift : Z) (i : Z)
  (t : list Z * list Z * list Z) : list Z * list Z * list Z :=
  let '(green, red, blue) := t in
  let v := aget 0 intensity_progression i in
  (aset green (Z.rem (int_wrap (i + 0 * shift)) NUM_RAINBOW_LEDS) (uint8_wrap v),
   aset red (Z.rem (int_wrap (i + 1 * shift)) NUM_RAINBOW_LEDS) (uint8_wrap v),
   aset blue (Z.rem (int_wrap (i + 2 * shift)) NUM_RAINBOW_LEDS) (uint8_wrap v)).

Definition setup (w : World) : World :=
  (* The colors are shifted 4 steps to get the mixing above. *)
  let shift := 4 in
  (* Add the intensity curve and let the intensity be shifted between
     the colors. *)
  let '(green, red, blue) :=
    for_upto (Z.to_nat NUM_RAINBOW_LEDS) (setup_colors_body shift)
      (green w, red w, blue w) in
  (* Start by turning off all LEDs. *)
  let leds :=
    for_upto (Z.to_nat NUM_LEDS) (fun whiteLed leds => aset leds whiteLed Black)
      (leds w) in
  {| leds := leds; green := green; red := red; blue := blue;
     steps_reader := steps_reader w; color_reader := color_reader w;
     state := state w;
     steps_trigger := steps_trigger w; color_trigger := color_trigger w |}.

(** The first loop of [loop]: turn off LEDs. *)
Definition turn_off_leds (s : State) (leds : list CRGB) : list CRGB :=
  for_upto (Z.to_nat NUM_RAINBOW_LEDS)
    (fun i leds =>
       aset leds (Z.rem (int_wrap (start_led s + i)) NUM_LEDS) Black)
    leds.

(** The last loop of [loop]: set the LED colors. *)
Definition set_led_colors (green red blue : list Z) (s : State)
  (leds : list CRGB) : list CRGB :=
  for_upto (Z.to_nat NUM_RAINBOW_LEDS)
    (fun i leds =>
       let led_pos := uint8_wrap (Z.rem (int_wrap (start_led s + i)) NUM_LEDS) in
       let color_pos :=
         uint8_wrap (Z.rem (int_wrap (color_index s + i)) NUM_RAINBOW_LEDS) in
       aset leds led_pos
         (RGB (aget 0 red color_pos) (aget 0 green color_pos)
            (aget 0 blue color_pos)))
    leds.

Section Loop.

(** [pow] of the C library and the rounding of a real number to a
    [double], as functions on the reals that doubles denote. *)
Variable pow : R -> R -> R.
Variable round : R -> R.

Definition reverse_and_expo (value : Z) : Z :=
  (* I need to reverse the [0, 512] values. *)
  let value := int_wrap (512 - c_abs value) in
  let value := if value =? 0 then 1 else value in
  int_of_double (round (1 + pow 2 (round (IZR value / 64)))).

(** One run of [loop]; [movement_sample] and [color_sample] are what
    [analogRead] returns for the two pots.  [FastLED.show] displays
    the [leds] of the result. *)
Definition loop (movement_sample color_sample : Z) (w : World) : World :=
  (* Read the settings from the pots. *)
  let '(settings, steps_reader, color_reader) :=
    get_settings movement_sample color_sample
      (steps_reader w) (color_reader w) in
  (* Turn off LEDs. *)
  let leds := turn_off_leds (state w) (leds w) in
  let steps_overflow_value := reverse_and_expo (steps_speed settings) in
  let color_overflow_value := reverse_and_expo (color_speed settings) in
  let steps_trigger :=
    set_trigger_level steps_overflow_value (steps_trigger w) in
  let color_trigger :=
    set_trigger_level color_overflow_value (color_trigger w) in
  let '(steps_fired, steps_trigger) := tick steps_trigger in
  let state :=
    (* The steps counter overflowed, time to move the LEDs. *)
    if steps_fired then step_leds settings (state w) else state w in
  let '(color_fired, color_trigger) := tick color_trigger in
  let state :=
    (* The color counter overflowed, time to move the colors. *)
    if color_fired then step_color settings state else state in
  (* Set the LED colors. *)
  let leds := set_led_colors (green w) (red w) (blue w) state leds in
  {| leds := leds; green := green w; red := red w; blue := blue w;
     steps_reader := steps_reader; color_reader := color_reader;
     state := state;
     steps_trigger := steps_trigger; color_trigger := color_trigger |}.

(** Successive runs of [loop], one per pair of raw samples. *)
Fixpoint loops (samples : list (Z * Z)) (w : World) : World :=
  match samples with
  | [] => w
  | (movement_sample, color_sample) :: samples =>
      loops samples (loop movement_sample color_sample w)
  end.

End Loop.

(** What holds of the world between two runs of [loop]: the indices are
    within the strip and the window, and the strip has its length. *)
Definition world_ok (w : World) : Prop :=
  0 <= start_led (state w) < NUM_LEDS /\
  0 <= color_index (state w) < NUM_RAINBOW_LEDS /\
  length (leds w) = Z.to_nat NUM_LEDS.

(** ** Further notions for the properties below *)

(** What holds of a reader of any span that an [int] holds, between two
    calls: the recorded bounds are raw values. *)
Definition reader_bounded (r : AnalogReader) : Prop :=
  0 <= _top r <= 32767 /\ 0 <= _min r <= 1023 /\ 0 <= _max r <= 1023.

(** What [loop] does with a trigger, run after run: set the level of
    the run, then call [tick]. *)
Fixpoint tick_levels (levels : list Z) (t : CountTrigger)
  : list bool * CountTrigger :=
  match levels with
  | [] => ([], t)
  | level :: levels =>
      let '(fired, t) := tick (set_trigger_level level t) in
      let '(fireds, t) := tick_levels levels t in
      (fired :: fireds, t)
  end.

(** The LED [p] lies in the window of 12 LEDs that starts at [start]
    and wraps around the end of the strip. *)
Definition in_window (start p : Z) : bool :=
  (p - start) mod NUM_LEDS <? NUM_RAINBOW_LEDS.

(** The strip is dark outside the window of the state. *)
Definition dark_outside (w : World) : Prop :=
  forall p, 0 <= p < NUM_LEDS ->
    in_window (start_led (state w)) p = false ->
    aget Black (leds w) p = Black.

(** The strip shows the worm and nothing else: the LED at offset [i] of
    the window has the colors of slot [(color_index + i) mod 12], and
    the LEDs outside the window are off. *)
Definition shows_worm (w : World) : Prop :=
  forall p, 0 <= p < NUM_LEDS ->
    aget Black (leds w) p =
      if in_window (start_led (state w)) p then
        let i := (p - start_led (state w)) mod NUM_LEDS in
        let slot := (color_index (state w) + i) mod NUM_RAINBOW_LEDS in
        RGB (aget 0 (red w) slot) (aget 0 (green w) slot)
          (aget 0 (blue w) slot)
      else Black.

(** ** Facts on machine integers *)

Lemma int_wrap_small (z : Z) : -32768 <= z <= 32767 -> int_wrap z = z.
Proof.
  intros Hz. unfold int_wrap.
  rewrite Z.mod_small; lia.
Qed.

Lemma int_wrap_range (z : Z) : -32768 <= int_wrap z <= 32767.
Proof.
  unfold int_wrap.
  pose proof (Z.mod_pos_bound (z + 32768) 65536 ltac:(lia)). lia.
Qed.

Lemma uint32_wrap_small (z : Z) : 0 <= z < 4294967296 -> uint32_wrap z = z.
Proof. intros Hz. unfold uint32_wrap. apply Z.mod_small. lia. Qed.

Lemma uint8_wrap_small (z : Z) : 0 <= z < 256 -> uint8_wrap z = z.
Proof. intros Hz. unfold uint8_wrap. apply Z.mod_small. lia. Qed.

Lemma c_abs_small (z : Z) : -32767 <= z <= 32767 -> c_abs z = Z.abs z.
Proof. intros Hz. unfold c_abs. apply int_wrap_small. lia. Qed.

(** ** The decoder on the range of a reader *)

(** On [0, 1023] nothing wraps: the decoder is a function of the
    centred value [value - 512]. *)
Lemma set_direction_and_speed_centred (v : Z) :
  0 <= v <= 1023 ->
  set_direction_and_speed v =
    let c := v - 512 in
    if Z.abs c <? 32 then (0, 0)
    else if c <? 0 then (1, Z.abs c) else (-1, Z.abs c).
Proof.
  intros Hv. unfold set_direction_and_speed.
  rewrite (int_wrap_small (v - 512)) by lia.
  rewrite (c_abs_small (v - 512)) by lia.
  cbv zeta.
  destruct (Z.ltb_spec (Z.abs (v - 512)) 32) as [Hd | Hd].
  - reflexivity.
  - rewrite (c_abs_small (v - 512)) by lia.
    destruct (Z.ltb_spec (v - 512) 0) as [Hn | Hn]; [reflexivity |].
    destruct (Z.gtb_spec (v - 512) 0) as [Hp | Hp]; [reflexivity | lia].
Qed.

Lemma decode_below (v : Z) :
  0 <= v <= 480 -> set_direction_and_speed v = (1, 512 - v).
Proof.
  intros Hv. rewrite set_direction_and_speed_centred by lia. cbv zeta.
  destruct (Z.ltb_spec (Z.abs (v - 512)) 32); [lia |].
  destruct (Z.ltb_spec (v - 512) 0); [| lia].
  f_equal. lia.
Qed.

Lemma decode_dead (v : Z) :
  481 <= v <= 543 -> set_direction_and_speed v = (0, 0).
Proof.
  intros Hv. rewrite set_direction_and_speed_centred by lia. cbv zeta.
  destruct (Z.ltb_spec (Z.abs (v - 512)) 32); [reflexivity | lia].
Qed.

Lemma decode_above (v : Z) :
  544 <= v <= 1023 -> set_direction_and_speed v = (-1, v - 512).
Proof.
  intros Hv. rewrite set_direction_and_speed_centred by lia. cbv zeta.
  destruct (Z.ltb_spec (Z.abs (v - 512)) 32); [lia |].
  destruct (Z.ltb_spec (v - 512) 0); [lia |].
  f_equal. lia.
Qed.

(** The three regions of the decoder on the range of a reader. *)
Lemma decode_cases (v : Z) :
  0 <= v <= 1023 ->
  (0 <= v <= 480 /\ set_direction_and_speed v = (1, 512 - v)) \/
  (481 <= v <= 543 /\ set_direction_and_speed v = (0, 0)) \/
  (544 <= v <= 1023 /\ set_direction_and_speed v = (-1, v - 512)).
Proof.
  intros Hv.
  destruct (Z_le_gt_dec v 480); [left; split; [lia | apply decode_below; lia] |].
  destruct (Z_le_gt_dec v 543);
    [right; left; split; [lia | apply decode_dead; lia] |].
  right; right; split; [lia | apply decode_above; lia].
Qed.

Ltac decode_regions v H :=
  unfold direction_of, speed_of, ceiling, DEADBAND in *;
  destruct (decode_cases v H) as [[? ->] | [[? ->] | [? ->]]];
  cbn [fst snd] in *.

(** ** The decoder: dead zone, directions and speeds *)

(** The decoder around the dead zone and at the two ends. *)
Example decode_samples :
  map set_direction_and_speed [0; 479; 480; 481; 512; 543; 544; 1023]
  = [(1, 512); (1, 33); (1, 32); (0, 0); (0, 0); (0, 0); (-1, 32); (-1, 511)].
Proof. reflexivity. Qed.

(** C2, as the code has it: the centre of the decoder is 512, not
    [ceiling / 2].  For every input [v] in [0, ceiling], with
    [c = v - 512] the centred value: the decoder returns direction 0 and
    speed 0 exactly when [|c| < DEADBAND]; at [|c| = DEADBAND] the
    direction is not 0; and outside the dead zone the direction is +1
    when [c] is negative and -1 when it is positive, with speed [|c|]. *)
Theorem decode_dead_zone (v : Z) :
  0 <= v <= ceiling ->
  let c := v - 512 in
  (set_direction_and_speed v = (0, 0) <-> Z.abs c < DEADBAND) /\
  (Z.abs c = DEADBAND -> direction_of v <> 0) /\
  (DEADBAND <= Z.abs c -> c < 0 -> direction_of v = 1) /\
  (DEADBAND <= Z.abs c -> 0 < c -> direction_of v = -1) /\
  (DEADBAND <= Z.abs c -> speed_of v = Z.abs c).
Proof.
  intros Hv c. subst c.
  assert (H : 0 <= v <= 1023) by (unfold ceiling in Hv; lia).
  decode_regions v H; repeat split; intros; try lia; try congruence.
Qed.

Lemma decode_dead_zone_witness :
  0 <= 480 <= ceiling /\
  (set_direction_and_speed 480 = (0, 0) <-> Z.abs (480 - 512) < DEADBAND) /\
  (Z.abs (480 - 512) = DEADBAND -> direction_of 480 <> 0) /\
  (DEADBAND <= Z.abs (480 - 512) -> 480 - 512 < 0 -> direction_of 480 = 1) /\
  (DEADBAND <= Z.abs (480 - 512) -> 0 < 480 - 512 -> direction_of 480 = -1) /\
  (DEADBAND <= Z.abs (480 - 512) -> speed_of 480 = Z.abs (480 - 512)).
Proof.
  split; [unfold ceiling; lia |].
  apply (decode_dead_zone 480). unfold ceiling; lia.
Defined.

(** C2 as stated fails at [v = 480]: the input lies within [DEADBAND] of
    [ceiling / 2], both for the exact half 511.5 (compared after
    doubling) and for the integer quotient 511, and the decoder returns
    direction +1 and speed 32. *)
Lemma decode_dead_zone_counterexample :
  0 <= 480 <= ceiling /\
  Z.abs (2 * 480 - ceiling) < 2 * DEADBAND /\
  Z.abs (480 - ceiling / 2) < DEADBAND /\
  set_direction_and_speed 480 = (1, 32) /\
  set_direction_and_speed 480 <> (0, 0).
Proof. vm_compute. repeat split; congruence. Qed.

(** C1, as the code has it.  For every input [v] in [0, ceiling] at
    least [DEADBAND] away from the exact half [ceiling / 2 = 511.5]
    (compared after doubling), decoding the mirrored input
    [ceiling - v] yields the opposite direction, which is not 0, and a
    speed that differs from the speed of [v] by exactly one:
    [speed (ceiling - v) = speed v - direction v]. *)
Theorem decode_mirror (v : Z) :
  0 <= v <= ceiling ->
  2 * DEADBAND <= Z.abs (2 * v - ceiling) ->
  direction_of (ceiling - v) = - direction_of v /\
  direction_of v <> 0 /\
  speed_of (ceiling - v) = speed_of v - direction_of v /\
  Z.abs (speed_of (ceiling - v) - speed_of v) = 1.
Proof.
  intros Hv Hfar.
  assert (H : 0 <= v <= 1023) by (unfold ceiling in Hv; lia).
  assert (H' : 0 <= 1023 - v <= 1023) by lia.
  unfold direction_of, speed_of, ceiling, DEADBAND in *.
  destruct (decode_cases v H) as [[? ->] | [[? ->] | [? ->]]];
    destruct (decode_cases (1023 - v) H') as [[? ->] | [[? ->] | [? ->]]];
    cbn [fst snd]; lia.
Qed.

Lemma decode_mirror_witness :
  0 <= 100 <= ceiling /\
  2 * DEADBAND <= Z.abs (2 * 100 - ceiling) /\
  direction_of (ceiling - 100) = - direction_of 100 /\
  direction_of 100 <> 0 /\
  speed_of (ceiling - 100) = speed_of 100 - direction_of 100 /\
  Z.abs (speed_of (ceiling - 100) - speed_of 100) = 1.
Proof.
  split; [unfold ceiling; lia |].
  split; [unfold ceiling, DEADBAND; lia |].
  apply (decode_mirror 100); unfold ceiling, DEADBAND; lia.
Defined.

(** C1 as stated fails at [v = 0]: the input is outside the dead zone
    (for the exact half and for the integer quotient alike), the
    directions of 0 and of its mirror image 1023 are opposite, and the
    speeds are 512 and 511. *)
Lemma decode_mirror_counterexample :
  0 <= 0 <= ceiling /\
  2 * DEADBAND <= Z.abs (2 * 0 - ceiling) /\
  DEADBAND <= Z.abs (0 - ceiling / 2) /\
  set_direction_and_speed 0 = (1, 512) /\
  set_direction_and_speed (ceiling - 0) = (-1, 511) /\
  speed_of (ceiling - 0) <> speed_of 0.
Proof. vm_compute. repeat split; congruence. Qed.

(** C10.  For every input [v] in [0, 1023] the speed lies in [0, 512];
    the speed 512 is reached only at [v = 0], with direction +1; with
    direction -1 the speed is at most 511, which is reached at
    [v = 1023]. *)
Theorem decode_speed_range (v : Z) :
  0 <= v <= 1023 ->
  0 <= speed_of v <= 512 /\
  (speed_of v = 512 -> v = 0 /\ direction_of v = 1) /\
  (direction_of v = -1 -> speed_of v <= 511) /\
  set_direction_and_speed 0 = (1, 512) /\
  set_direction_and_speed 1023 = (-1, 511).
Proof.
  intros H.
  assert (E0 : set_direction_and_speed 0 = (1, 512)) by reflexivity.
  assert (E1 : set_direction_and_speed 1023 = (-1, 511)) by reflexivity.
  rewrite E0, E1.
  decode_regions v H; repeat split; intros; lia.
Qed.

Lemma decode_speed_range_witness :
  0 <= 1023 <= 1023 /\
  0 <= speed_of 1023 <= 512 /\
  (speed_of 1023 = 512 -> 1023 = 0 /\ direction_of 1023 = 1) /\
  (direction_of 1023 = -1 -> speed_of 1023 <= 511) /\
  set_direction_and_speed 0 = (1, 512) /\
  set_direction_and_speed 1023 = (-1, 511).
Proof.
  split; [lia |].
  apply (decode_speed_range 1023). lia.
Defined.

(** ** The counting trigger fires every [level] calls *)

Lemma mod_succ (n L : Z) :
  0 <= n -> 0 < L ->
  (n + 1) mod L = if n mod L + 1 =? L then 0 else n mod L + 1.
Proof.
  intros Hn HL.
  pose proof (Z.mod_pos_bound n L HL) as Hr.
  pose proof (Z.div_mod n L ltac:(lia)) as Hq.
  destruct (Z.eqb_spec (n mod L + 1) L) as [E | E].
  - symmetry. apply (Z.mod_unique_pos _ _ (n / L + 1)); lia.
  - symmetry. apply (Z.mod_unique_pos _ _ (n / L)); lia.
Qed.

Lemma tick_n_succ (n : nat) (t : CountTrigger) :
  tick_n (S n) t = snd (tick (tick_n n t)).
Proof.
  revert t. induction n as [| n IH]; intros t.
  - reflexivity.
  - change (tick_n (S (S n)) t) with (tick_n (S n) (snd (tick t))).
    rewrite IH. reflexivity.
Qed.

(** One call on a trigger whose counter is below its level. *)
Lemma tick_below (c L : Z) :
  0 <= c < L -> L < 4294967296 ->
  tick {| _counter := c; _level := L |} =
    if c + 1 =? L then (true, {| _counter := 0; _level := L |})
    else (false, {| _counter := c + 1; _level := L |}).
Proof.
  intros Hc HL. unfold tick. cbn [_counter _level].
  rewrite uint32_wrap_small by lia.
  destruct (Z.eqb_spec (c + 1) L) as [E | E].
  - destruct (Z.geb_spec (c + 1) L); [reflexivity | lia].
  - destruct (Z.geb_spec (c + 1) L); [lia | reflexivity].
Qed.

(** After [n] calls from a reset trigger the counter is [n mod level]. *)
Lemma tick_n_counter (L : Z) (n : nat) :
  1 <= L < 4294967296 ->
  tick_n n {| _counter := 0; _level := L |} =
    {| _counter := Z.of_nat n mod L; _level := L |}.
Proof.
  intros HL. induction n as [| n IH].
  - cbn [tick_n]. rewrite Z.mod_0_l by lia. reflexivity.
  - rewrite tick_n_succ, IH.
    pose proof (Z.mod_pos_bound (Z.of_nat n) L ltac:(lia)) as Hr.
    rewrite tick_below by lia.
    rewrite Nat2Z.inj_succ, <- Z.add_1_r.
    rewrite (mod_succ (Z.of_nat n) L) by lia.
    destruct (Z.eqb_spec (Z.of_nat n mod L + 1) L); reflexivity.
Qed.

(** Call number [k] fires exactly when [k] is a multiple of the level. *)
Lemma fires_at_multiple (L : Z) (k : nat) :
  1 <= L < 4294967296 -> (1 <= k)%nat ->
  fires_at k {| _counter := 0; _level := L |} = (Z.of_nat k mod L =? 0).
Proof.
  intros HL Hk. unfold fires_at.
  destruct k as [| n]; [lia |]. cbn [Nat.pred].
  rewrite tick_n_counter by lia.
  pose proof (Z.mod_pos_bound (Z.of_nat n) L ltac:(lia)) as Hr.
  rewrite tick_below by lia.
  rewrite Nat2Z.inj_succ, <- Z.add_1_r.
  rewrite (mod_succ (Z.of_nat n) L) by lia.
  destruct (Z.eqb_spec (Z.of_nat n mod L + 1) L) as [E | E].
  - reflexivity.
  - cbn [fst]. symmetry. apply Z.eqb_neq. lia.
Qed.

(** Six calls on a new trigger of level 3. *)
Example trigger_level_3 :
  map (fun k => fires_at k (set_trigger_level 3 CountTrigger_new))
    [1; 2; 3; 4; 5; 6]%nat
  = [false; false; true; false; false; true].
Proof. reflexivity. Qed.

(** C3.  For every level [L >= 1] that a [uint32_t] holds, on a trigger
    whose counter is 0 (just constructed, or just fired) and whose level
    is set to [L]: the first [L - 1] calls of [tick] return false, call
    number [L] returns true, and call number [k] returns true exactly
    when [k] is a multiple of [L]. *)
Theorem trigger_fires_every_level (L : Z) (t : CountTrigger) :
  1 <= L < 4294967296 ->
  _counter t = 0 ->
  let t := set_trigger_level L t in
  (forall k : nat, (1 <= k)%nat -> Z.of_nat k < L -> fires_at k t = false) /\
  fires_at (Z.to_nat L) t = true /\
  (forall k : nat, (1 <= k)%nat ->
     fires_at k t = true <-> (L | Z.of_nat k)).
Proof.
  intros HL Hc t'. subst t'. unfold set_trigger_level.
  rewrite Hc, uint32_wrap_small by lia.
  split; [| split].
  - intros k Hk Hlt. rewrite fires_at_multiple by lia.
    apply Z.eqb_neq. rewrite Z.mod_small; lia.
  - rewrite fires_at_multiple by lia.
    rewrite Z2Nat.id by lia. rewrite Z.mod_same by lia. reflexivity.
  - intros k Hk. rewrite fires_at_multiple by lia.
    rewrite Z.eqb_eq. rewrite Z.mod_divide by lia. reflexivity.
Qed.

Lemma trigger_fires_every_level_witness :
  1 <= 3 < 4294967296 /\
  _counter CountTrigger_new = 0 /\
  (forall k : nat, (1 <= k)%nat -> Z.of_nat k < 3 ->
     fires_at k (set_trigger_level 3 CountTrigger_new) = false) /\
  fires_at (Z.to_nat 3) (set_trigger_level 3 CountTrigger_new) = true /\
  (forall k : nat, (1 <= k)%nat ->
     fires_at k (set_trigger_level 3 CountTrigger_new) = true <->
     (3 | Z.of_nat k)).
Proof.
  split; [lia |]. split; [reflexivity |].
  apply (trigger_fires_every_level 3 CountTrigger_new); [lia | reflexivity].
Defined.

(** ** The reader stays within its span *)

Lemma reader_ok_new (pin : Z) : reader_ok (AnalogReader_new pin 1023).
Proof. unfold reader_ok, AnalogReader_new. cbn. lia. Qed.

(** The 32-bit product of [get_value] is the exact product: it does not
    wrap, although it may exceed the range of an [int]. *)
Lemma product_exact (lo s : Z) :
  0 <= lo <= s -> s <= 1023 ->
  uint32_wrap (uint32_wrap 1023 * uint32_wrap (int_wrap (s - lo)))
    = 1023 * (s - lo).
Proof.
  intros H1 H2.
  rewrite (int_wrap_small (s - lo)) by lia.
  rewrite (uint32_wrap_small 1023) by lia.
  rewrite (uint32_wrap_small (s - lo)) by lia.
  apply uint32_wrap_small. nia.
Qed.

Lemma interpolation_bounds (rel range : Z) :
  0 <= rel <= range -> 0 < range ->
  0 <= 1023 * rel / range <= 1023.
Proof.
  intros H1 H2. split.
  - apply Z.div_pos; lia.
  - apply Z.div_le_upper_bound; nia.
Qed.

(** One call on a reader of span 1023: the machine computation is the
    exact interpolation over the widened bounds. *)
Lemma get_value_step (s : Z) (r : AnalogReader) :
  reader_ok r -> 0 <= s <= 1023 ->
  let lo := Z.min (_min r) s in
  let hi := Z.max (_max r) s in
  get_value s r =
    (fst (normalize_exact 1023 (_min r, _max r) s),
     {| _pin := _pin r; _top := 1023; _min := lo; _max := hi |}) /\
  0 <= fst (get_value s r) <= 1023 /\
  reader_ok (snd (get_value s r)).
Proof.
  intros (Htop & Hmin & Hmax) Hs lo hi.
  assert (Elo : (if s <? _min r then s else _min r) = lo)
    by (subst lo; destruct (Z.ltb_spec s (_min r)); lia).
  assert (Ehi : (if s >? _max r then s else _max r) = hi)
    by (subst hi; destruct (Z.gtb_spec s (_max r)); lia).
  assert (Hlo : 0 <= lo <= s) by (subst lo; lia).
  assert (Hhi : s <= hi <= 1023) by (subst hi; lia).
  assert (E : get_value s r =
    (fst (normalize_exact 1023 (_min r, _max r) s),
     {| _pin := _pin r; _top := 1023; _min := lo; _max := hi |})).
  { unfold get_value, normalize_exact. cbn [fst snd].
    rewrite Elo, Ehi, Htop. fold lo hi.
    rewrite (int_wrap_small (hi - lo)) by lia.
    destruct (Z.eqb_spec (hi - lo) 0) as [E0 | E0];
      destruct (Z.eqb_spec hi lo) as [E1 | E1]; try lia; [reflexivity |].
    rewrite product_exact by lia.
    rewrite (uint32_wrap_small (hi - lo)) by lia.
    rewrite Z.quot_div_nonneg by nia.
    pose proof (interpolation_bounds (s - lo) (hi - lo) ltac:(lia) ltac:(lia)).
    rewrite int_wrap_small by lia. reflexivity. }
  rewrite E. cbn [fst snd]. split; [reflexivity |]. split.
  - unfold normalize_exact. cbn [fst snd]. fold lo hi.
    destruct (Z.eqb_spec hi lo); [lia |].
    apply interpolation_bounds; lia.
  - unfold reader_ok. cbn. lia.
Qed.

Lemma get_values_cons (s : Z) (samples : list Z) (r : AnalogReader) :
  fst (get_values (s :: samples) r) =
    fst (get_value s r) :: fst (get_values samples (snd (get_value s r))).
Proof.
  cbn [get_values]. destruct (get_value s r) as [v r1]. cbn [fst snd].
  destruct (get_values samples r1) as [vs r2]. reflexivity.
Qed.

Lemma get_values_in_range (samples : list Z) (r : AnalogReader) :
  reader_ok r ->
  Forall (fun s => 0 <= s <= 1023) samples ->
  Forall (fun v => 0 <= v <= 1023) (fst (get_values samples r)) /\
  fst (get_values samples r) =
    normalize_all_exact 1023 (_min r, _max r) samples.
Proof.
  revert r. induction samples as [| s samples IH]; intros r Hr Hs.
  - split; [constructor | reflexivity].
  - apply Forall_cons in Hs. destruct Hs as [Hs Hrest].
    destruct (get_value_step s r Hr Hs) as (E & Hv & Hr').
    rewrite get_values_cons.
    destruct (IH _ Hr' Hrest) as [IHa IHb].
    split; [constructor; assumption |].
    rewrite IHb. rewrite E. cbn [fst snd normalize_all_exact normalize_exact].
    reflexivity.
Qed.

(** C4.  A reader of span 1023 is fed any sequence of raw samples, each
    in [0, 1023]: every value it returns lies in [0, 1023]; the values
    are those of the interpolation over unbounded integers, so that no
    machine operation wrapped; and the 32-bit product
    [top * (sample - min)] is the exact product. *)
Theorem get_value_in_span (pin : Z) (samples : list Z) :
  Forall (fun s => 0 <= s <= 1023) samples ->
  let outputs := fst (get_values samples (AnalogReader_new pin 1023)) in
  Forall (fun v => 0 <= v <= 1023) outputs /\
  outputs = normalize_all_exact 1023 (1023, 0) samples /\
  (forall lo s, 0 <= lo <= s -> s <= 1023 ->
     uint32_wrap (uint32_wrap 1023 * uint32_wrap (int_wrap (s - lo)))
       = 1023 * (s - lo)).
Proof.
  intros Hs outputs. subst outputs.
  destruct (get_values_in_range samples _ (reader_ok_new pin) Hs) as [Ha Hb].
  split; [exact Ha |]. split; [exact Hb |].
  exact product_exact.
Qed.

Lemma get_value_in_span_witness :
  Forall (fun s => 0 <= s <= 1023) [512; 0; 1023; 300] /\
  Forall (fun v => 0 <= v <= 1023)
    (fst (get_values [512; 0; 1023; 300] (AnalogReader_new 1 1023))) /\
  fst (get_values [512; 0; 1023; 300] (AnalogReader_new 1 1023)) =
    normalize_all_exact 1023 (1023, 0) [512; 0; 1023; 300] /\
  (forall lo s, 0 <= lo <= s -> s <= 1023 ->
     uint32_wrap (uint32_wrap 1023 * uint32_wrap (int_wrap (s - lo)))
       = 1023 * (s - lo)).
Proof.
  assert (H : Forall (fun s => 0 <= s <= 1023) [512; 0; 1023; 300])
    by (repeat constructor; lia).
  split; [exact H |].
  exact (get_value_in_span 1 [512; 0; 1023; 300] H).
Defined.

(** The values of the run above. *)
Example get_values_run :
  fst (get_values [512; 0; 1023; 300] (AnalogReader_new 1 1023))
    = [1023; 0; 1023; 300].
Proof. reflexivity. Qed.

(** ** A reader that knows a single value returns its top *)

(** Whatever the reader, when the bounds recorded by a call coincide the
    call returns the top of the span. *)
Lemma get_value_degenerate (s : Z) (r : AnalogReader) :
  _min (snd (get_value s r)) = _max (snd (get_value s r)) ->
  fst (get_value s r) = _top r.
Proof.
  unfold get_value. cbn [fst snd _min _max]. intros E.
  rewrite E, Z.sub_diag. reflexivity.
Qed.

(** A reader fed the raw value [s] once or more has recorded [s] as both
    of its bounds. *)
Lemma get_value_same (s : Z) (r : AnalogReader) :
  0 <= s <= 1023 ->
  r = AnalogReader_new (_pin r) (_top r) \/ (_min r = s /\ _max r = s) ->
  fst (get_value s r) = _top r /\
  _top (snd (get_value s r)) = _top r /\
  _min (snd (get_value s r)) = s /\ _max (snd (get_value s r)) = s.
Proof.
  intros Hs Hr.
  assert (Hmin : _min (snd (get_value s r)) = s).
  { unfold get_value. cbn [snd _min].
    destruct Hr as [-> | [-> _]]; cbn [_min AnalogReader_new];
      destruct (Z.ltb_spec s 1023); destruct (Z.ltb_spec s s); lia. }
  assert (Hmax : _max (snd (get_value s r)) = s).
  { unfold get_value. cbn [snd _max].
    destruct Hr as [-> | [_ ->]]; cbn [_max AnalogReader_new];
      destruct (Z.gtb_spec s 0); destruct (Z.gtb_spec s s); lia. }
  repeat split; try assumption.
  apply get_value_degenerate. congruence.
Qed.

Lemma get_values_same (s : Z) (n : nat) (r : AnalogReader) :
  0 <= s <= 1023 ->
  r = AnalogReader_new (_pin r) (_top r) \/ (_min r = s /\ _max r = s) ->
  fst (get_values (repeat s n) r) = repeat (_top r) n.
Proof.
  intros Hs. revert r. induction n as [| n IH]; intros r Hr.
  - reflexivity.
  - cbn [repeat]. rewrite get_values_cons.
    destruct (get_value_same s r Hs Hr) as (Ev & Et & Emin & Emax).
    rewrite Ev. f_equal.
    rewrite IH by (right; split; assumption).
    rewrite Et. reflexivity.
Qed.

(** C5.  A reader of any span [top], newly built and fed the same raw
    value [s] in [0, 1023] once or more, returns [top] at every call,
    the first included; and whatever the reader, a call after which the
    recorded minimum equals the recorded maximum returns [top]. *)
Theorem get_value_single_value (pin top s : Z) (n : nat) :
  0 <= s <= 1023 ->
  fst (get_values (repeat s (S n)) (AnalogReader_new pin top))
    = repeat top (S n) /\
  fst (get_value s (AnalogReader_new pin top)) = top /\
  (forall (sample : Z) (r : AnalogReader),
     _min (snd (get_value sample r)) = _max (snd (get_value sample r)) ->
     fst (get_value sample r) = _top r).
Proof.
  intros Hs. split; [| split].
  - apply (get_values_same s (S n) (AnalogReader_new pin top) Hs).
    left. reflexivity.
  - apply (get_value_same s (AnalogReader_new pin top) Hs).
    left. reflexivity.
  - exact get_value_degenerate.
Qed.

Lemma get_value_single_value_witness :
  0 <= 700 <= 1023 /\
  fst (get_values (repeat 700 3) (AnalogReader_new 0 1023))
    = repeat 1023 3 /\
  fst (get_value 700 (AnalogReader_new 0 1023)) = 1023 /\
  (forall (sample : Z) (r : AnalogReader),
     _min (snd (get_value sample r)) = _max (snd (get_value sample r)) ->
     fst (get_value sample r) = _top r).
Proof.
  split; [lia |].
  apply (get_value_single_value 0 1023 700 2). lia.
Defined.

(** ** Stepping wraps around *)

(** On an index of the strip, a step forwards and a step backwards are
    the successor and the predecessor modulo [NUM_LEDS]. *)
Lemma step_leds_mod (settings : Settings) (s : State) :
  0 <= start_led s < NUM_LEDS ->
  start_led (step_leds settings s) =
    if steps_direction settings >? 0 then (start_led s + 1) mod NUM_LEDS
    else if steps_direction settings <? 0 then (start_led s - 1) mod NUM_LEDS
    else start_led s.
Proof.
  unfold step_leds, NUM_LEDS. intros H.
  destruct (steps_direction settings >? 0).
  - cbn [start_led]. rewrite int_wrap_small by lia.
    rewrite Z.rem_mod_nonneg by lia. reflexivity.
  - destruct (steps_direction settings <? 0); [| reflexivity].
    cbn [start_led]. rewrite (int_wrap_small (start_led s - 1)) by lia.
    rewrite int_wrap_small by lia.
    rewrite Z.rem_mod_nonneg by lia.
    rewrite <- (Z.mod_add (start_led s - 1) 1 144) by lia.
    f_equal; lia.
Qed.

Lemma step_color_mod (settings : Settings) (s : State) :
  0 <= color_index s < NUM_RAINBOW_LEDS ->
  color_index (step_color settings s) =
    if color_direction settings >? 0
    then (color_index s + 1) mod NUM_RAINBOW_LEDS
    else if color_direction settings <? 0
    then (color_index s - 1) mod NUM_RAINBOW_LEDS
    else color_index s.
Proof.
  unfold step_color, NUM_RAINBOW_LEDS. intros H.
  destruct (color_direction settings >? 0).
  - cbn [color_index]. rewrite int_wrap_small by lia.
    rewrite Z.rem_mod_nonneg by lia. reflexivity.
  - destruct (color_direction settings <? 0); [| reflexivity].
    cbn [color_index]. rewrite (int_wrap_small (color_index s - 1)) by lia.
    rewrite int_wrap_small by lia.
    rewrite Z.rem_mod_nonneg by lia.
    rewrite <- (Z.mod_add (color_index s - 1) 1 12) by lia.
    f_equal; lia.
Qed.

(** The steps keep the two indices within the strip and the window. *)
Lemma step_leds_range (settings : Settings) (s : State) :
  0 <= start_led s < NUM_LEDS ->
  0 <= start_led (step_leds settings s) < NUM_LEDS /\
  color_index (step_leds settings s) = color_index s.
Proof.
  intros H. split.
  - rewrite step_leds_mod by assumption. unfold NUM_LEDS in *.
    destruct (steps_direction settings >? 0);
      [apply Z.mod_pos_bound; lia |].
    destruct (steps_direction settings <? 0);
      [apply Z.mod_pos_bound; lia | lia].
  - unfold step_leds.
    destruct (steps_direction settings >? 0); [reflexivity |].
    destruct (steps_direction settings <? 0); reflexivity.
Qed.

Lemma step_color_range (settings : Settings) (s : State) :
  0 <= color_index s < NUM_RAINBOW_LEDS ->
  0 <= color_index (step_color settings s) < NUM_RAINBOW_LEDS /\
  start_led (step_color settings s) = start_led s.
Proof.
  intros H. split.
  - rewrite step_color_mod by assumption. unfold NUM_RAINBOW_LEDS in *.
    destruct (color_direction settings >? 0);
      [apply Z.mod_pos_bound; lia |].
    destruct (color_direction settings <? 0);
      [apply Z.mod_pos_bound; lia | lia].
  - unfold step_color.
    destruct (color_direction settings >? 0); [reflexivity |].
    destruct (color_direction settings <? 0); reflexivity.
Qed.

(** C7.  Whatever the other fields of the settings and of the state:
    with direction +1 the leading index steps from [NUM_LEDS - 1] to 0,
    and with direction -1 from 0 to [NUM_LEDS - 1]; the color index
    does the same modulo [NUM_RAINBOW_LEDS]; and with direction 0 a step
    leaves the state as it is. *)
Theorem step_wraps_around (sd ss cd cs led color : Z) (s : State) :
  step_leds (mkSettings 1 ss cd cs) (mkState (NUM_LEDS - 1) color)
    = mkState 0 color /\
  step_leds (mkSettings (-1) ss cd cs) (mkState 0 color)
    = mkState (NUM_LEDS - 1) color /\
  step_color (mkSettings sd ss 1 cs) (mkState led (NUM_RAINBOW_LEDS - 1))
    = mkState led 0 /\
  step_color (mkSettings sd ss (-1) cs) (mkState led 0)
    = mkState led (NUM_RAINBOW_LEDS - 1) /\
  step_leds (mkSettings 0 ss cd cs) s = s /\
  step_color (mkSettings sd ss 0 cs) s = s.
Proof. repeat split. Qed.

(** A turn of the whole strip: 143 steps forwards from 0 lead to 143,
    and one more leads back to 0. *)
Example step_leds_full_turn :
  let forwards := mkSettings 1 0 0 0 in
  start_led (Nat.iter 143 (step_leds forwards) (mkState 0 0)) = 143 /\
  start_led (Nat.iter 144 (step_leds forwards) (mkState 0 0)) = 0.
Proof. vm_compute. split; reflexivity. Qed.

(** ** The color tables *)

Lemma list_of_length_12 {A} (l : list A) :
  length l = 12%nat ->
  exists a0 a1 a2 a3 a4 a5 a6 a7 a8 a9 a10 a11,
    l = [a0; a1; a2; a3; a4; a5; a6; a7; a8; a9; a10; a11].
Proof.
  intros H.
  do 12 (destruct l as [| ? l]; [discriminate H |]).
  destruct l; [| discriminate H].
  repeat eexists.
Qed.

(** C9.  After [setup], whatever the three tables of 12 slots held
    before: green is at maximum intensity at slots 1 to 5, red at slots
    5 to 9 and blue at slots 9, 10, 11, 0 and 1; the two slots next to
    each band (0 and 6, 4 and 10, 8 and 2) are at medium intensity, and
    all other slots are 0.  The medium intensity lies strictly between
    0 and the maximum. *)
Theorem setup_color_bands (w : World) :
  length (green w) = 12%nat ->
  length (red w) = 12%nat ->
  length (blue w) = 12%nat ->
  let hi := MAX_INTENSITY in
  let md := MEDIUM_INTENSITY in
  green (setup w) = [md; hi; hi; hi; hi; hi; md; 0; 0; 0; 0; 0] /\
  red (setup w) = [0; 0; 0; 0; md; hi; hi; hi; hi; hi; md; 0] /\
  blue (setup w) = [hi; hi; md; 0; 0; 0; 0; 0; md; hi; hi; hi] /\
  0 < md < hi.
Proof.
  intros Hg Hr Hb hi md.
  destruct (list_of_length_12 _ Hg)
    as (g0 & g1 & g2 & g3 & g4 & g5 & g6 & g7 & g8 & g9 & g10 & g11 & Eg).
  destruct (list_of_length_12 _ Hr)
    as (r0 & r1 & r2 & r3 & r4 & r5 & r6 & r7 & r8 & r9 & r10 & r11 & Er).
  destruct (list_of_length_12 _ Hb)
    as (b0 & b1 & b2 & b3 & b4 & b5 & b6 & b7 & b8 & b9 & b10 & b11 & Eb).
  unfold setup. rewrite Eg, Er, Eb.
  repeat split; reflexivity.
Qed.

Lemma setup_color_bands_witness :
  length (green World_init) = 12%nat /\
  length (red World_init) = 12%nat /\
  length (blue World_init) = 12%nat /\
  green (setup World_init) = [7; 30; 30; 30; 30; 30; 7; 0; 0; 0; 0; 0] /\
  red (setup World_init) = [0; 0; 0; 0; 7; 30; 30; 30; 30; 30; 7; 0] /\
  blue (setup World_init) = [30; 30; 7; 0; 0; 0; 0; 0; 7; 30; 30; 30] /\
  0 < 7 < 30.
Proof.
  split; [reflexivity |]. split; [reflexivity |]. split; [reflexivity |].
  apply (setup_color_bands World_init); reflexivity.
Defined.

(** [setup] turns the whole strip off. *)
Example setup_strip_off :
  leds (setup World_init) = repeat Black 144.
Proof. reflexivity. Qed.

(** ** Arrays and counted loops *)

Lemma length_aset {A} (l : list A) (i : Z) (x : A) :
  length (aset l i x) = length l.
Proof.
  unfold aset. destruct (i <? 0); [reflexivity | apply length_insert].
Qed.

Lemma aget_aset_eq {A} (d : A) (l : list A) (i : Z) (x : A) :
  0 <= i < Z.of_nat (length l) -> aget d (aset l i x) i = x.
Proof.
  intros H. unfold aget, aset.
  destruct (Z.ltb_spec i 0); [lia |].
  rewrite list_lookup_insert_eq by lia. reflexivity.
Qed.

Lemma aget_aset_ne {A} (d : A) (l : list A) (i j : Z) (x : A) :
  i <> j -> aget d (aset l i x) j = aget d l j.
Proof.
  intros H. unfold aget, aset.
  destruct (Z.ltb_spec j 0); [reflexivity |].
  destruct (Z.ltb_spec i 0); [reflexivity |].
  rewrite list_lookup_insert_ne by lia. reflexivity.
Qed.

Lemma for_upto_succ {S} (n : nat) (body : Z -> S -> S) (s : S) :
  for_upto (Datatypes.S n) body s = body (Z.of_nat n) (for_upto n body s).
Proof.
  unfold for_upto. rewrite seq_S, fold_left_app. reflexivity.
Qed.

(** A loop that stores [val i] at [pos i] for [i] from 0 to [n - 1],
    where the positions are distinct cells of the array: the cell
    [pos i] holds [val i] afterwards and the other cells are as
    before. *)
Lemma for_upto_aset {A} (d : A) (pos : Z -> Z) (val : Z -> A) (n : nat)
  (l : list A) :
  (forall i, 0 <= i < Z.of_nat n -> 0 <= pos i < Z.of_nat (length l)) ->
  (forall i j, 0 <= i < Z.of_nat n -> 0 <= j < Z.of_nat n ->
     pos i = pos j -> i = j) ->
  let l' := for_upto n (fun i l => aset l (pos i) (val i)) l in
  length l' = length l /\
  (forall i, 0 <= i < Z.of_nat n -> aget d l' (pos i) = val i) /\
  (forall p, (forall i, 0 <= i < Z.of_nat n -> p <> pos i) ->
     aget d l' p = aget d l p).
Proof.
  induction n as [| n IH]; intros Hpos Hinj.
  - cbn. split; [reflexivity |]. split; [intros i Hi; lia | reflexivity].
  - cbv zeta. rewrite for_upto_succ.
    destruct IH as (IHlen & IHin & IHout).
    { intros i Hi. apply Hpos. lia. }
    { intros i j Hi Hj. apply Hinj; lia. }
    cbv zeta in IHlen, IHin, IHout.
    split; [rewrite length_aset; exact IHlen |]. split.
    + intros i Hi.
      destruct (Z.eq_dec i (Z.of_nat n)) as [-> | Hne].
      * apply aget_aset_eq. rewrite IHlen. apply Hpos. lia.
      * rewrite aget_aset_ne.
        -- apply IHin. lia.
        -- intros E. apply Hne. symmetry. apply Hinj; [lia | lia | exact E].
    + intros p Hp.
      rewrite aget_aset_ne.
      * apply IHout. intros i Hi. apply Hp. lia.
      * intros E. apply (Hp (Z.of_nat n)); [lia | congruence].
Qed.

(** ** The cells of a window *)

Lemma window_cell (start i : Z) :
  0 <= start < 144 -> 0 <= i < 12 ->
  (start + i) mod 144 =
    if start + i <? 144 then start + i else start + i - 144.
Proof.
  intros Hs Hi. destruct (Z.ltb_spec (start + i) 144).
  - apply Z.mod_small. lia.
  - symmetry. apply (Z.mod_unique_pos _ _ 1); lia.
Qed.

Lemma window_cell_range (start i : Z) :
  0 <= start < 144 -> 0 <= i < 12 -> 0 <= (start + i) mod 144 < 144.
Proof. intros _ _. apply Z.mod_pos_bound. lia. Qed.

Lemma window_cell_inj (start i j : Z) :
  0 <= start < 144 -> 0 <= i < 12 -> 0 <= j < 12 ->
  (start + i) mod 144 = (start + j) mod 144 -> i = j.
Proof.
  intros Hs Hi Hj. rewrite !window_cell by assumption.
  destruct (Z.ltb_spec (start + i) 144); destruct (Z.ltb_spec (start + j) 144);
    lia.
Qed.

(** The position that both loops of [loop] compute. *)
Lemma led_pos_mod (start i : Z) :
  0 <= start < 144 -> 0 <= i < 12 ->
  Z.rem (int_wrap (start + i)) NUM_LEDS = (start + i) mod 144 /\
  uint8_wrap (Z.rem (int_wrap (start + i)) NUM_LEDS) = (start + i) mod 144.
Proof.
  intros Hs Hi. unfold NUM_LEDS.
  rewrite int_wrap_small by lia.
  rewrite Z.rem_mod_nonneg by lia.
  pose proof (window_cell_range start i Hs Hi).
  split; [reflexivity | apply uint8_wrap_small; lia].
Qed.

Lemma color_pos_mod (color i : Z) :
  0 <= color < 12 -> 0 <= i < 12 ->
  uint8_wrap (Z.rem (int_wrap (color + i)) NUM_RAINBOW_LEDS)
    = (color + i) mod 12.
Proof.
  intros Hs Hi. unfold NUM_RAINBOW_LEDS.
  rewrite int_wrap_small by lia.
  rewrite Z.rem_mod_nonneg by lia.
  pose proof (Z.mod_pos_bound (color + i) 12 ltac:(lia)).
  apply uint8_wrap_small; lia.
Qed.

(** ** The two loops over the window *)

Lemma turn_off_leds_cells (s : State) (strip : list CRGB) :
  0 <= start_led s < 144 -> length strip = 144%nat ->
  let strip' := turn_off_leds s strip in
  length strip' = 144%nat /\
  (forall i, 0 <= i < 12 ->
     aget Black strip' ((start_led s + i) mod 144) = Black) /\
  (forall p, (forall i, 0 <= i < 12 -> p <> (start_led s + i) mod 144) ->
     aget Black strip' p = aget Black strip p).
Proof.
  intros Hs Hlen.
  pose (pos := fun i => Z.rem (int_wrap (start_led s + i)) NUM_LEDS).
  assert (Hpos : forall i, 0 <= i < 12 -> pos i = (start_led s + i) mod 144)
    by (intros i Hi; apply led_pos_mod; assumption).
  destruct (for_upto_aset Black pos (fun _ => Black) 12 strip)
    as (Hl & Hin & Hout).
  { intros i Hi. rewrite Hpos, Hlen by lia.
    pose proof (window_cell_range (start_led s) i Hs ltac:(lia)). lia. }
  { intros i j Hi Hj. rewrite !Hpos by lia.
    apply window_cell_inj; [assumption | lia | lia]. }
  change (for_upto 12 (fun i l => aset l (pos i) Black) strip)
    with (turn_off_leds s strip) in Hl, Hin, Hout.
  cbv zeta. split; [congruence |]. split.
  - intros i Hi. rewrite <- Hpos by assumption. apply Hin. lia.
  - intros p Hp. apply Hout. intros i Hi. rewrite Hpos by lia.
    apply Hp. lia.
Qed.

Lemma set_led_colors_cells (g r b : list Z) (s : State) (strip : list CRGB) :
  0 <= start_led s < 144 -> 0 <= color_index s < 12 ->
  length strip = 144%nat ->
  let strip' := set_led_colors g r b s strip in
  length strip' = 144%nat /\
  (forall i, 0 <= i < 12 ->
     aget Black strip' ((start_led s + i) mod 144) =
       let slot := (color_index s + i) mod 12 in
       RGB (aget 0 r slot) (aget 0 g slot) (aget 0 b slot)) /\
  (forall p, (forall i, 0 <= i < 12 -> p <> (start_led s + i) mod 144) ->
     aget Black strip' p = aget Black strip p).
Proof.
  intros Hs Hc Hlen.
  pose (pos := fun i =>
    uint8_wrap (Z.rem (int_wrap (start_led s + i)) NUM_LEDS)).
  pose (slot := fun i =>
    uint8_wrap (Z.rem (int_wrap (color_index s + i)) NUM_RAINBOW_LEDS)).
  pose (val := fun i =>
    RGB (aget 0 r (slot i)) (aget 0 g (slot i)) (aget 0 b (slot i))).
  assert (Hpos : forall i, 0 <= i < 12 -> pos i = (start_led s + i) mod 144)
    by (intros i Hi; apply led_pos_mod; assumption).
  assert (Hslot : forall i, 0 <= i < 12 ->
            slot i = (color_index s + i) mod 12)
    by (intros i Hi; apply color_pos_mod; assumption).
  destruct (for_upto_aset Black pos val 12 strip) as (Hl & Hin & Hout).
  { intros i Hi. rewrite Hpos, Hlen by lia.
    pose proof (window_cell_range (start_led s) i Hs ltac:(lia)). lia. }
  { intros i j Hi Hj. rewrite !Hpos by lia.
    apply window_cell_inj; [assumption | lia | lia]. }
  change (for_upto 12 (fun i l => aset l (pos i) (val i)) strip)
    with (set_led_colors g r b s strip) in Hl, Hin, Hout.
  cbv zeta. split; [congruence |]. split.
  - intros i Hi. rewrite <- Hpos, <- Hslot by assumption. apply Hin. lia.
  - intros p Hp. apply Hout. intros i Hi. rewrite Hpos by lia.
    apply Hp. lia.
Qed.

(** ** One run of the loop *)

(** The state and the strip after a run: each index is stepped or kept,
    and the strip is drawn from the new state over the strip cleared
    from the old one. *)
Lemma loop_fields (pow : R -> R -> R) (round : R -> R)
  (movement_sample color_sample : Z) (w : World) :
  let w' := loop pow round movement_sample color_sample w in
  (exists (settings : Settings) (steps_fired color_fired : bool),
     state w' =
       let s := if steps_fired then step_leds settings (state w)
                else state w in
       if color_fired then step_color settings s else s) /\
  leds w' =
    set_led_colors (green w) (red w) (blue w) (state w')
      (turn_off_leds (state w) (leds w)) /\
  green w' = green w /\ red w' = red w /\ blue w' = blue w.
Proof.
  unfold loop.
  destruct (get_settings movement_sample color_sample
              (steps_reader w) (color_reader w)) as [[settings sr] cr].
  destruct (tick (set_trigger_level
              (reverse_and_expo pow round (steps_speed settings))
              (steps_trigger w))) as [steps_fired st].
  destruct (tick (set_trigger_level
              (reverse_and_expo pow round (color_speed settings))
              (color_trigger w))) as [color_fired ct].
  cbn [state leds green red blue].
  split; [| repeat split].
  exists settings, steps_fired, color_fired. reflexivity.
Qed.

Lemma loop_state_range (pow : R -> R -> R) (round : R -> R)
  (movement_sample color_sample : Z) (w : World) :
  0 <= start_led (state w) < NUM_LEDS ->
  0 <= color_index (state w) < NUM_RAINBOW_LEDS ->
  let w' := loop pow round movement_sample color_sample w in
  0 <= start_led (state w') < NUM_LEDS /\
  0 <= color_index (state w') < NUM_RAINBOW_LEDS.
Proof.
  intros Hs Hc w'.
  destruct (loop_fields pow round movement_sample color_sample w)
    as ((settings & f1 & f2 & E) & _).
  fold w' in E. rewrite E. cbv zeta.
  pose proof (step_leds_range settings (state w) Hs) as [L1 L2].
  set (s1 := if f1 then step_leds settings (state w) else state w).
  assert (H1 : 0 <= start_led s1 < NUM_LEDS /\
               0 <= color_index s1 < NUM_RAINBOW_LEDS).
  { subst s1. destruct f1; [rewrite L2 |]; split; assumption. }
  destruct H1 as [H1s H1c].
  pose proof (step_color_range settings s1 H1c) as [C1 C2].
  destruct f2; [rewrite C2 |]; split; assumption.
Qed.

(** [world_ok] holds after [setup] and is kept by every run. *)
Lemma world_ok_setup : world_ok (setup World_init).
Proof.
  unfold world_ok.
  change (state (setup World_init)) with (mkState 0 0).
  cbn [start_led color_index]. unfold NUM_LEDS, NUM_RAINBOW_LEDS.
  repeat split; lia.
Qed.

Lemma world_ok_loop (pow : R -> R -> R) (round : R -> R)
  (movement_sample color_sample : Z) (w : World) :
  world_ok w -> world_ok (loop pow round movement_sample color_sample w).
Proof.
  intros (Hs & Hc & Hlen).
  destruct (loop_fields pow round movement_sample color_sample w)
    as (_ & Eleds & _).
  destruct (loop_state_range pow round movement_sample color_sample w Hs Hc)
    as [Hs' Hc'].
  split; [exact Hs' |]. split; [exact Hc' |].
  rewrite Eleds. unfold NUM_LEDS, NUM_RAINBOW_LEDS in *.
  change (Z.to_nat 144) with 144%nat in *.
  destruct (turn_off_leds_cells (state w) (leds w) Hs Hlen) as (Lc & _).
  apply set_led_colors_cells; assumption.
Qed.

Lemma world_ok_loops (pow : R -> R -> R) (round : R -> R)
  (samples : list (Z * Z)) (w : World) :
  world_ok w -> world_ok (loops pow round samples w).
Proof.
  revert w. induction samples as [| [m c] samples IH]; intros w Hw.
  - exact Hw.
  - cbn [loops]. apply IH. apply world_ok_loop. exact Hw.
Qed.

(** C8.  In every run of [loop], from a world as it is after [setup] or
    after any number of runs ([world_ok]): the strip shown is obtained
    by clearing the window of the state before the run and then drawing
    the window of the state after it.  So the LED at offset [i] from
    the new leading index has the colors of slot
    [(color index + i) mod 12] of the three tables; an LED of the old
    window that is not in the new one is off; and every other LED is as
    it was. *)
Theorem loop_renders_window (pow : R -> R -> R) (round : R -> R)
  (movement_sample color_sample : Z) (w : World) :
  world_ok w ->
  let w' := loop pow round movement_sample color_sample w in
  let before := start_led (state w) in
  let after := start_led (state w') in
  let phase := color_index (state w') in
  leds w' =
    set_led_colors (green w) (red w) (blue w) (state w')
      (turn_off_leds (state w) (leds w)) /\
  (forall i, 0 <= i < NUM_RAINBOW_LEDS ->
     aget Black (leds w') ((after + i) mod NUM_LEDS) =
       let slot := (phase + i) mod NUM_RAINBOW_LEDS in
       RGB (aget 0 (red w) slot) (aget 0 (green w) slot)
         (aget 0 (blue w) slot)) /\
  (forall p j,
     (forall i, 0 <= i < NUM_RAINBOW_LEDS -> p <> (after + i) mod NUM_LEDS) ->
     0 <= j < NUM_RAINBOW_LEDS -> p = (before + j) mod NUM_LEDS ->
     aget Black (leds w') p = Black) /\
  (forall p,
     (forall i, 0 <= i < NUM_RAINBOW_LEDS -> p <> (after + i) mod NUM_LEDS) ->
     (forall j, 0 <= j < NUM_RAINBOW_LEDS -> p <> (before + j) mod NUM_LEDS) ->
     aget Black (leds w') p = aget Black (leds w) p) /\
  world_ok w'.
Proof.
  intros Hw w' before after phase.
  pose proof (world_ok_loop pow round movement_sample color_sample w Hw)
    as Hw'.
  fold w' in Hw'.
  destruct Hw as (Hs & Hc & Hlen). destruct Hw' as (Hs' & Hc' & Hlen').
  destruct (loop_fields pow round movement_sample color_sample w)
    as (_ & Eleds & _).
  fold w' in Eleds. fold after in Hs'. fold phase in Hc'.
  unfold world_ok, NUM_LEDS, NUM_RAINBOW_LEDS in *.
  change (Z.to_nat 144) with 144%nat in *.
  destruct (turn_off_leds_cells (state w) (leds w) Hs Hlen)
    as (Lc & Cin & Cout).
  destruct (set_led_colors_cells (green w) (red w) (blue w) (state w')
              (turn_off_leds (state w) (leds w)) Hs' Hc' Lc)
    as (Ld & Din & Dout).
  rewrite <- Eleds in Ld, Din, Dout.
  split; [exact Eleds |]. split; [exact Din |]. split; [| split].
  - intros p j Hp Hj ->. rewrite Dout by exact Hp. apply Cin. exact Hj.
  - intros p Hp Hq. rewrite Dout by exact Hp. apply Cout. exact Hq.
  - split; [exact Hs' |]. split; [exact Hc' | exact Ld].
Qed.

(** ** The trigger level of a speed *)

Lemma Int_part_bounds (r : R) (a b : Z) :
  (IZR a <= r)%R -> (r <= IZR b)%R -> a <= Int_part r <= b.
Proof.
  intros Ha Hb. destruct (base_Int_part r) as [Hle Hgt]. split.
  - assert (H : (IZR (a - 1) < IZR (Int_part r))%R)
      by (rewrite minus_IZR; lra).
    apply lt_IZR in H. lia.
  - apply le_IZR. lra.
Qed.

(** The conversion of a double between two non-negative [int] values. *)
Lemma int_of_double_bounds (r : R) (a b : Z) :
  0 <= a -> b <= 32767 ->
  (IZR a <= r)%R -> (r <= IZR b)%R -> a <= int_of_double r <= b.
Proof.
  intros Ha Hb Har Hrb. unfold int_of_double.
  pose proof (IZR_le 0 a Ha) as H0.
  destruct (Rle_dec 0 r) as [_ | Hneg]; [| lra].
  pose proof (Int_part_bounds r a b Har Hrb).
  rewrite int_wrap_small; lia.
Qed.

Lemma Rabs_le_both (x a : R) : (Rabs x <= a)%R -> (- a <= x <= a)%R.
Proof.
  unfold Rabs. destruct (Rcase_abs x); intros H; lra.
Qed.

Lemma Rpower_2_pos (x : R) : (0 < Rpower 2 x)%R.
Proof. unfold Rpower. apply exp_pos. Qed.

Lemma Rpower_2_8 : Rpower 2 8 = 256%R.
Proof.
  replace 8%R with (INR 8) by (simpl; lra).
  rewrite Rpower_pow by lra. simpl. lra.
Qed.

Lemma Rpower_2_le_256 (x : R) : (x <= 8)%R -> (Rpower 2 x <= 256)%R.
Proof.
  intros Hx. rewrite <- Rpower_2_8. apply Rle_Rpower; lra.
Qed.

Lemma Rpower_2_le_2 (x : R) : (x <= 1)%R -> (Rpower 2 x <= 2)%R.
Proof.
  intros Hx. rewrite <- (Rpower_1 2) at 2 by lra. apply Rle_Rpower; lra.
Qed.

(** [2 ^ x] is above [1 + 1/128] from [x = 1/64] on. *)
Lemma Rpower_2_lower (x : R) :
  (1 / 64 <= x)%R -> (1 + 1 / 128 < Rpower 2 x)%R.
Proof.
  intros Hx.
  apply Rlt_le_trans with (Rpower 2 (1 / 64)); [| apply Rle_Rpower; lra].
  unfold Rpower. pose proof ln_lt_2 as Hln.
  apply Rlt_trans with (1 + 1 / 64 * ln 2)%R; [lra |].
  apply exp_ineq1. lra.
Qed.

(** The reversed speed: [512 - speed], and 1 instead of 0. *)
Lemma reversed_speed (speed : Z) :
  0 <= speed <= 512 ->
  (if int_wrap (512 - c_abs speed) =? 0 then 1
   else int_wrap (512 - c_abs speed)) = Z.max 1 (512 - speed).
Proof.
  intros H. rewrite c_abs_small by lia.
  rewrite Z.abs_eq by lia. rewrite int_wrap_small by lia.
  destruct (Z.eqb_spec (512 - speed) 0); lia.
Qed.

Section TriggerLevel.

(** The floating point of the board, as far as the level needs it:
    rounding is monotone and keeps the multiples of 1/64 that a
    24-bit significand holds, and [pow] is within 1/256 of the power
    it approximates, relative to that power. *)
Variable pow : R -> R -> R.
Variable round : R -> R.
Hypothesis round_monotone :
  forall x y : R, (x <= y)%R -> (round x <= round y)%R.
Hypothesis round_exact :
  forall k : Z, Z.abs k <= 16777216 ->
    round (IZR k / 64) = (IZR k / 64)%R.
Hypothesis pow_accurate :
  forall x : R, (0 <= x <= 8)%R ->
    (Rabs (pow 2 x - Rpower 2 x) <= Rpower 2 x / 256)%R.

Lemma round_int (n : Z) : Z.abs n <= 262144 -> round (IZR n) = IZR n.
Proof.
  intros Hn.
  replace (IZR n) with (IZR (64 * n) / 64)%R by (rewrite mult_IZR; field).
  apply round_exact. lia.
Qed.

(** The level lies between two integers that enclose the sum
    [1 + pow(2, folded / 64.0)]. *)
Lemma level_between (folded a b : Z) :
  1 <= folded <= 512 -> 0 <= a -> b <= 32767 ->
  (IZR a <= 1 + pow 2 (IZR folded / 64))%R ->
  (1 + pow 2 (IZR folded / 64) <= IZR b)%R ->
  a <= int_of_double (round (1 + pow 2 (round (IZR folded / 64)))) <= b.
Proof.
  intros Hf Ha Hb Hlo Hhi.
  rewrite (round_exact folded) by lia.
  assert (Hab : (IZR a <= IZR b)%R) by lra. apply le_IZR in Hab.
  apply int_of_double_bounds; [assumption | assumption | |].
  - rewrite <- (round_int a) by lia. apply round_monotone. exact Hlo.
  - rewrite <- (round_int b) by lia. apply round_monotone. exact Hhi.
Qed.

Lemma folded_exponent (folded : Z) :
  1 <= folded <= 512 -> (1 / 64 <= IZR folded / 64 <= 8)%R.
Proof.
  intros [H1 H2]. apply IZR_le in H1, H2. lra.
Qed.

(** What [pow] returns for a reversed speed, next to the power. *)
Lemma pow_between (folded : Z) :
  1 <= folded <= 512 ->
  let P := Rpower 2 (IZR folded / 64) in
  (P - P / 256 <= pow 2 (IZR folded / 64) <= P + P / 256)%R.
Proof.
  intros Hf P. pose proof (folded_exponent folded Hf) as Hx.
  pose proof (pow_accurate (IZR folded / 64) ltac:(lra)) as Hacc.
  fold P in Hacc. apply Rabs_le_both in Hacc. lra.
Qed.

(** The level of a reversed speed: at least 2, at most 258, and
    within [1 + P / 256] of [1 + P] for [P = 2 ^ (folded / 64)]. *)
Lemma level_of_folded (folded : Z) :
  1 <= folded <= 512 ->
  let P := Rpower 2 (IZR folded / 64) in
  let level :=
    int_of_double (round (1 + pow 2 (round (IZR folded / 64)))) in
  2 <= level <= 258 /\
  (P - P / 256 < IZR level <= 2 + P + P / 256)%R.
Proof.
  intros Hf P level.
  pose proof (folded_exponent folded Hf) as Hx.
  pose proof (pow_between folded Hf) as Hp. fold P in Hp.
  pose proof (Rpower_2_lower (IZR folded / 64) ltac:(lra)) as Hlow.
  pose proof (Rpower_2_le_256 (IZR folded / 64) ltac:(lra)) as Hup.
  fold P in Hlow, Hup.
  set (y := (1 + pow 2 (IZR folded / 64))%R) in *.
  assert (Hy : (2 <= y <= 258)%R) by (subst y; lra).
  split.
  - apply level_between; try assumption; try lia; fold y; lra.
  - destruct (base_Int_part y) as [Hfl1 Hfl2].
    pose proof (Int_part_bounds y 2 258 ltac:(lra) ltac:(lra)) as Hn.
    assert (Hlev : Int_part y <= level <= Int_part y + 1).
    { apply level_between; try assumption; try lia; fold y;
        rewrite ?plus_IZR; lra. }
    destruct Hlev as [Hl1 Hl2].
    apply IZR_le in Hl1, Hl2. rewrite plus_IZR in Hl2.
    subst y. lra.
Qed.

(** C6.  With a floating point as above, for every speed in
    [0, 512]: the level is an integer from 2 on (and at most 258, so
    it is an [int]); the level of speed 0 is greater than the level
    of speed 512; and the level follows [1 + 2 ^ (folded / 64)] for
    [folded = 512 - speed], and 1 when that is 0: it is the
    truncation of the rounded sum computed with the [pow] of the
    board, and within [1 + 2 ^ (folded / 64) / 256] of the real
    number [1 + 2 ^ (folded / 64)]. *)
Theorem reverse_and_expo_level (speed : Z) :
  0 <= speed <= 512 ->
  let folded := Z.max 1 (512 - speed) in
  let P := Rpower 2 (IZR folded / 64) in
  let level := reverse_and_expo pow round speed in
  level = int_of_double (round (1 + pow 2 (round (IZR folded / 64)))) /\
  2 <= level <= 258 /\
  reverse_and_expo pow round 512 < reverse_and_expo pow round 0 /\
  (Rabs (IZR level - (1 + P)) <= 1 + P / 256)%R.
Proof.
  intros Hs folded P level.
  assert (E : forall s, 0 <= s <= 512 ->
            reverse_and_expo pow round s =
              int_of_double
                (round (1 + pow 2 (round (IZR (Z.max 1 (512 - s)) / 64))))).
  { intros s H. unfold reverse_and_expo. cbv zeta.
    rewrite (reversed_speed s H). reflexivity. }
  assert (Hf : 1 <= folded <= 512) by (subst folded; lia).
  assert (El : level =
            int_of_double (round (1 + pow 2 (round (IZR folded / 64)))))
    by (apply (E speed Hs)).
  destruct (level_of_folded folded Hf) as [Hrange Hnear].
  cbv zeta in Hrange, Hnear. rewrite <- El in Hrange, Hnear.
  fold P in Hnear.
  split; [exact El |]. split; [exact Hrange |]. split.
  - rewrite (E 512), (E 0) by lia.
    change (Z.max 1 (512 - 512)) with 1. change (Z.max 1 (512 - 0)) with 512.
    pose proof (pow_between 1 ltac:(lia)) as Hp1.
    pose proof (pow_between 512 ltac:(lia)) as Hp2.
    cbv zeta in Hp1, Hp2.
    replace (IZR 512 / 64)%R with 8%R in Hp2 by lra.
    rewrite Rpower_2_8 in Hp2.
    pose proof (Rpower_2_le_2 (IZR 1 / 64) ltac:(lra)) as Hup.
    pose proof (Rpower_2_pos (IZR 1 / 64)) as Hpos.
    assert (H1 : 0 <= int_of_double
              (round (1 + pow 2 (round (IZR 1 / 64)))) <= 4)
      by (apply level_between; try lia; lra).
    assert (H2 : 256 <= int_of_double
              (round (1 + pow 2 (round (IZR 512 / 64)))) <= 258).
    { apply level_between; try lia;
        replace (IZR 512 / 64)%R with 8%R by lra; lra. }
    lia.
  - apply Rabs_le. lra.
Qed.

End TriggerLevel.

(** ** A floating point without errors *)

(** The hypotheses on the floating point hold when rounding is the
    identity and [pow] is the power of the reals. *)
Lemma exact_floating_point :
  (forall x y : R, (x <= y)%R -> (id x <= id y)%R) /\
  (forall k : Z, Z.abs k <= 16777216 -> id (IZR k / 64)%R = (IZR k / 64)%R) /\
  (forall x : R, (0 <= x <= 8)%R ->
     (Rabs (Rpower 2 x - Rpower 2 x) <= Rpower 2 x / 256)%R).
Proof.
  split; [intros x y H; exact H |]. split; [reflexivity |].
  intros x _. pose proof (Rpower_2_pos x).
  apply Rabs_le. lra.
Qed.

(** Without rounding errors the levels at the two ends are 257 and 2. *)
Example reverse_and_expo_exact_ends :
  reverse_and_expo Rpower id 0 = 257 /\
  reverse_and_expo Rpower id 512 = 2.
Proof.
  unfold reverse_and_expo, int_of_double, id.
  change (int_wrap (512 - c_abs 0)) with 512.
  change (int_wrap (512 - c_abs 512)) with 0.
  cbn [Z.eqb]. split.
  - replace (IZR 512 / 64)%R with 8%R by lra. rewrite Rpower_2_8.
    destruct (Rle_dec 0 (1 + 256)) as [_ | H]; [| lra].
    rewrite <- (Int_part_spec (1 + 256) 257); [reflexivity | lra].
  - pose proof (Rpower_2_lower (1 / 64) ltac:(lra)) as Hlo.
    pose proof (Rpower_2_le_2 (1 / 64) ltac:(lra)) as Hhi.
    destruct (Rle_dec 0 (1 + Rpower 2 (1 / 64))) as [_ | H]; [| lra].
    rewrite <- (Int_part_spec (1 + Rpower 2 (1 / 64)) 2);
      [reflexivity |].
    assert (Hlt : (Rpower 2 (1 / 64) < 2)%R).
    { rewrite <- (Rpower_1 2) at 2 by lra. apply Rpower_lt; lra. }
    lra.
Qed.

Lemma reverse_and_expo_level_witness :
  0 <= 0 <= 512 /\
  2 <= reverse_and_expo Rpower id 0 <= 258 /\
  reverse_and_expo Rpower id 512 < reverse_and_expo Rpower id 0.
Proof.
  destruct exact_floating_point as (Hmono & Hexact & Hacc).
  split; [lia |].
  destruct (reverse_and_expo_level Rpower id Hmono Hexact Hacc 0 ltac:(lia))
    as (_ & Hrange & Hends & _).
  split; [exact Hrange | exact Hends].
Defined.

Lemma loop_renders_window_witness :
  let w := setup World_init in
  let w' := loop Rpower id 0 1023 w in
  world_ok w /\
  leds w' =
    set_led_colors (green w) (red w) (blue w) (state w')
      (turn_off_leds (state w) (leds w)) /\
  world_ok w'.
Proof.
  intros w w'.
  assert (Hw : world_ok w).
  { unfold world_ok. change (state w) with (mkState 0 0).
    cbn [start_led color_index]. unfold NUM_LEDS, NUM_RAINBOW_LEDS.
    repeat split; lia. }
  split; [exact Hw |].
  destruct (loop_renders_window Rpower id 0 1023 w Hw)
    as (Hleds & _ & _ & _ & Hw').
  split; [exact Hleds | exact Hw'].
Defined.


(** * Further properties of the sketch *)

(** ** The reader: calibration *)

Lemma get_values_snd_cons (s : Z) (samples : list Z) (r : AnalogReader) :
  snd (get_values (s :: samples) r) =
    snd (get_values samples (snd (get_value s r))).
Proof.
  cbn [get_values]. destruct (get_value s r) as [v r1]. cbn [fst snd].
  destruct (get_values samples r1) as [vs r2]. reflexivity.
Qed.

Lemma get_value_bounds (s : Z) (r : AnalogReader) :
  _min (snd (get_value s r)) = Z.min s (_min r) /\
  _max (snd (get_value s r)) = Z.max s (_max r) /\
  _pin (snd (get_value s r)) = _pin r /\
  _top (snd (get_value s r)) = _top r.
Proof.
  unfold get_value. cbn [snd _min _max _pin _top].
  destruct (Z.ltb_spec s (_min r)); destruct (Z.gtb_spec s (_max r));
    repeat split; lia.
Qed.

(** X1.  Whatever the reader and the samples, after a sequence of calls
    the recorded minimum is the least of the former minimum and all the
    samples, the recorded maximum the greatest of the former maximum
    and all the samples; so the range never narrows and contains every
    sample read.  The pin and the top do not change. *)
Theorem get_values_calibration (samples : list Z) (r : AnalogReader) :
  let r' := snd (get_values samples r) in
  _min r' = fold_right Z.min (_min r) samples /\
  _max r' = fold_right Z.max (_max r) samples /\
  _min r' <= _min r /\ _max r <= _max r' /\
  Forall (fun s => _min r' <= s <= _max r') samples /\
  _pin r' = _pin r /\ _top r' = _top r.
Proof.
  revert r. induction samples as [| s samples IH]; intros r.
  - cbn. repeat split; try lia. constructor.
  - cbv zeta. rewrite get_values_snd_cons.
    destruct (get_value_bounds s r) as (Emin & Emax & Epin & Etop).
    destruct (IH (snd (get_value s r))) as (A & B & C & D & E & F & G).
    cbv zeta in A, B, C, D, E, F, G.
    set (r' := snd (get_values samples (snd (get_value s r)))) in *.
    rewrite Emin in A, C. rewrite Emax in B, D.
    assert (Hmin : fold_right Z.min (Z.min s (_min r)) samples =
                   Z.min s (fold_right Z.min (_min r) samples)).
    { clear. induction samples as [| x l IHl]; cbn [fold_right];
        [reflexivity | rewrite IHl; lia]. }
    assert (Hmax : fold_right Z.max (Z.max s (_max r)) samples =
                   Z.max s (fold_right Z.max (_max r) samples)).
    { clear. induction samples as [| x l IHl]; cbn [fold_right];
        [reflexivity | rewrite IHl; lia]. }
    rewrite Hmin in A. rewrite Hmax in B. cbn [fold_right].
    split; [exact A |]. split; [exact B |].
    split; [lia |]. split; [lia |].
    split; [constructor; [lia | exact E] |].
    split; congruence.
Qed.

(** ** The reader: any span that an [int] holds *)

Lemma scaled_bounds (top rel range : Z) :
  0 <= top -> 0 <= rel <= range -> 0 < range ->
  0 <= top * rel / range <= top.
Proof.
  intros Ht H1 H2. split.
  - apply Z.div_pos; nia.
  - apply Z.div_le_upper_bound; nia.
Qed.

(** One call on a reader of any span: the machine computation is the
    interpolation over unbounded integers. *)
Lemma get_value_exact (s : Z) (r : AnalogReader) :
  reader_bounded r -> 0 <= s <= 1023 ->
  get_value s r =
    (fst (normalize_exact (_top r) (_min r, _max r) s),
     {| _pin := _pin r; _top := _top r;
        _min := Z.min (_min r) s; _max := Z.max (_max r) s |}) /\
  0 <= fst (get_value s r) <= _top r /\
  reader_bounded (snd (get_value s r)).
Proof.
  intros (Htop & Hmin & Hmax) Hs.
  set (lo := Z.min (_min r) s). set (hi := Z.max (_max r) s).
  assert (Elo : (if s <? _min r then s else _min r) = lo)
    by (subst lo; destruct (Z.ltb_spec s (_min r)); lia).
  assert (Ehi : (if s >? _max r then s else _max r) = hi)
    by (subst hi; destruct (Z.gtb_spec s (_max r)); lia).
  assert (Hlo : 0 <= lo <= s) by (subst lo; lia).
  assert (Hhi : s <= hi <= 1023) by (subst hi; lia).
  assert (E : get_value s r =
    (fst (normalize_exact (_top r) (_min r, _max r) s),
     {| _pin := _pin r; _top := _top r; _min := lo; _max := hi |})).
  { unfold get_value, normalize_exact. cbn [fst snd].
    rewrite Elo, Ehi. fold lo hi.
    rewrite (int_wrap_small (hi - lo)) by lia.
    destruct (Z.eqb_spec (hi - lo) 0) as [E0 | E0];
      destruct (Z.eqb_spec hi lo) as [E1 | E1]; try lia; [reflexivity |].
    rewrite (int_wrap_small (s - lo)) by lia.
    rewrite (uint32_wrap_small (_top r)) by lia.
    rewrite (uint32_wrap_small (s - lo)) by lia.
    rewrite (uint32_wrap_small (_top r * (s - lo))) by nia.
    rewrite (uint32_wrap_small (hi - lo)) by lia.
    rewrite Z.quot_div_nonneg by nia.
    pose proof (scaled_bounds (_top r) (s - lo) (hi - lo)
                  ltac:(lia) ltac:(lia) ltac:(lia)).
    rewrite int_wrap_small by lia. reflexivity. }
  rewrite E. cbn [fst snd]. split; [reflexivity |]. split.
  - unfold normalize_exact. cbn [fst snd]. fold lo hi.
    destruct (Z.eqb_spec hi lo); [lia |].
    apply scaled_bounds; lia.
  - unfold reader_bounded. cbn. lia.
Qed.

Lemma reader_bounded_new (pin top : Z) :
  0 <= top <= 32767 -> reader_bounded (AnalogReader_new pin top).
Proof. intros H. unfold reader_bounded, AnalogReader_new. cbn. lia. Qed.

Lemma get_values_within_top (samples : list Z) (r : AnalogReader) :
  reader_bounded r ->
  Forall (fun s => 0 <= s <= 1023) samples ->
  Forall (fun v => 0 <= v <= _top r) (fst (get_values samples r)) /\
  fst (get_values samples r) =
    normalize_all_exact (_top r) (_min r, _max r) samples /\
  reader_bounded (snd (get_values samples r)).
Proof.
  revert r. induction samples as [| s samples IH]; intros r Hr Hs.
  - split; [constructor |]. split; [reflexivity | exact Hr].
  - apply Forall_cons in Hs. destruct Hs as [Hs Hrest].
    destruct (get_value_exact s r Hr Hs) as (E & Hv & Hr').
    rewrite get_values_cons, get_values_snd_cons.
    destruct (IH _ Hr' Hrest) as (IHa & IHb & IHc).
    destruct (get_value_bounds s r) as (_ & _ & _ & Etop).
    rewrite Etop in IHa, IHb.
    split; [constructor; assumption |]. split; [| exact IHc].
    rewrite IHb. rewrite E.
    cbn [fst snd normalize_all_exact normalize_exact _min _max].
    reflexivity.
Qed.

(** X2.  A reader built with any top from 0 to 32767 and fed raw
    samples in [0, 1023] returns a value between 0 and its top at every
    call, and the values are those of the interpolation over unbounded
    integers: no machine operation wraps for any such top. *)
Theorem get_values_between_0_and_top (pin top : Z) (samples : list Z) :
  0 <= top <= 32767 ->
  Forall (fun s => 0 <= s <= 1023) samples ->
  let outputs := fst (get_values samples (AnalogReader_new pin top)) in
  Forall (fun v => 0 <= v <= top) outputs /\
  outputs = normalize_all_exact top (1023, 0) samples.
Proof.
  intros Ht Hs outputs. subst outputs.
  destruct (get_values_within_top samples _ (reader_bounded_new pin top Ht) Hs)
    as (Ha & Hb & _).
  split; [exact Ha | exact Hb].
Qed.

Lemma get_values_between_0_and_top_witness :
  0 <= 32767 <= 32767 /\
  Forall (fun s => 0 <= s <= 1023) [0; 1023; 1022; 1] /\
  Forall (fun v => 0 <= v <= 32767)
    (fst (get_values [0; 1023; 1022; 1] (AnalogReader_new 0 32767))).
Proof.
  assert (H : Forall (fun s => 0 <= s <= 1023) [0; 1023; 1022; 1])
    by (repeat constructor; lia).
  split; [lia |]. split; [exact H |].
  exact (proj1 (get_values_between_0_and_top 0 32767 [0; 1023; 1022; 1]
                  ltac:(lia) H)).
Defined.

(** With the largest top the product needs more than 16 bits and the
    values are still exact. *)
Example get_values_largest_top :
  fst (get_values [0; 1023; 1022; 1] (AnalogReader_new 0 32767))
    = [32767; 32767; 32734; 32].
Proof. reflexivity. Qed.

(** The ends of the observed range map to the ends of the span. *)
Lemma get_value_ends (s : Z) (r : AnalogReader) :
  reader_bounded r -> 0 <= s <= 1023 ->
  (_max r <= s -> fst (get_value s r) = _top r) /\
  (s <= _min r -> s < _max r -> fst (get_value s r) = 0).
Proof.
  intros Hr Hs. destruct (get_value_exact s r Hr Hs) as (E & _ & _).
  rewrite E. cbn [fst]. unfold normalize_exact. cbn [fst snd].
  destruct Hr as (Htop & Hmin & Hmax). split.
  - intros Hge. rewrite (Z.max_r (_max r) s) by lia.
    destruct (Z.eqb_spec s (Z.min (_min r) s)) as [_ | Hne]; [reflexivity |].
    apply Z.div_mul. lia.
  - intros Hle Hlt. rewrite (Z.min_r (_min r) s) by lia.
    rewrite (Z.max_l (_max r) s) by lia.
    destruct (Z.eqb_spec (_max r) s) as [Heq | _]; [lia |].
    rewrite Z.sub_diag, Z.mul_0_r. apply Z.div_0_l. lia.
Qed.

(** X3.  The ends of the observed range map to the ends of the span: a
    sample at or above the recorded maximum returns the top, and a
    sample at or below the recorded minimum, when it is below the
    recorded maximum, returns 0. *)
Theorem get_value_at_ends (s : Z) (r : AnalogReader) :
  reader_bounded r -> 0 <= s <= 1023 ->
  (_max r <= s -> fst (get_value s r) = _top r) /\
  (s <= _min r -> s < _max r -> fst (get_value s r) = 0).
Proof. exact (get_value_ends s r). Qed.

Lemma get_value_at_ends_witness :
  reader_bounded (mkAnalogReader 0 1023 100 900) /\
  0 <= 950 <= 1023 /\
  fst (get_value 950 (mkAnalogReader 0 1023 100 900)) = 1023 /\
  fst (get_value 50 (mkAnalogReader 0 1023 100 900)) = 0.
Proof.
  assert (Hr : reader_bounded (mkAnalogReader 0 1023 100 900))
    by (unfold reader_bounded; cbn; lia).
  split; [exact Hr |]. split; [lia |]. split.
  - apply (get_value_at_ends 950 _ Hr); cbn; lia.
  - apply (get_value_at_ends 50 _ Hr); cbn; lia.
Defined.

(** X4.  For a given reader, a larger sample never gives a smaller
    value: [get_value] is monotone in the sample read. *)
Theorem get_value_monotone (s1 s2 : Z) (r : AnalogReader) :
  reader_bounded r -> 0 <= s1 -> s1 <= s2 -> s2 <= 1023 ->
  fst (get_value s1 r) <= fst (get_value s2 r).
Proof.
  intros Hr H1 H12 H2.
  assert (Hs1 : 0 <= s1 <= 1023) by lia.
  assert (Hs2 : 0 <= s2 <= 1023) by lia.
  destruct (get_value_exact s1 r Hr Hs1) as (E1 & R1 & _).
  destruct (get_value_exact s2 r Hr Hs2) as (E2 & R2 & _).
  destruct (get_value_ends s1 r Hr Hs1) as [_ Lo1].
  destruct (get_value_ends s2 r Hr Hs2) as [Hi2 _].
  destruct (Z_le_gt_dec (_max r) s2) as [Hge | Hlt];
    [rewrite (Hi2 Hge); lia |].
  destruct (Z_le_gt_dec s1 (_min r)) as [Hle | Hgt];
    [rewrite (Lo1 Hle ltac:(lia)); lia |].
  rewrite E1, E2. cbn [fst]. unfold normalize_exact. cbn [fst snd].
  destruct Hr as (Htop & Hmin & Hmax).
  rewrite !Z.min_l, !Z.max_l by lia.
  destruct (Z.eqb_spec (_max r) (_min r)); [lia |].
  apply Z.div_le_mono; nia.
Qed.

Lemma get_value_monotone_witness :
  reader_bounded (mkAnalogReader 0 1023 100 900) /\
  0 <= 300 /\ 300 <= 301 /\ 301 <= 1023 /\
  fst (get_value 300 (mkAnalogReader 0 1023 100 900))
    <= fst (get_value 301 (mkAnalogReader 0 1023 100 900)).
Proof.
  assert (Hr : reader_bounded (mkAnalogReader 0 1023 100 900))
    by (unfold reader_bounded; cbn; lia).
  split; [exact Hr |]. split; [lia |]. split; [lia |]. split; [lia |].
  apply (get_value_monotone 300 301 _ Hr); lia.
Defined.

(** X5.  Once a reader of span 1023 has seen both ends of the raw
    range, it returns every raw sample as it is and its calibration no
    longer changes. *)
Theorem get_value_calibrated (s : Z) (r : AnalogReader) :
  _top r = 1023 -> _min r = 0 -> _max r = 1023 ->
  0 <= s <= 1023 ->
  get_value s r = (s, r).
Proof.
  intros Et Emin Emax Hs.
  assert (Hr : reader_bounded r) by (unfold reader_bounded; lia).
  destruct (get_value_exact s r Hr Hs) as (E & _ & _).
  rewrite E. unfold normalize_exact. cbn [fst snd].
  rewrite Et, Emin, Emax.
  rewrite Z.min_l, Z.max_l by lia. cbn [Z.eqb].
  rewrite Z.sub_0_r, Z.mul_comm, Z.div_mul by lia.
  f_equal. destruct r as [pin top lo hi]. cbn in *. congruence.
Qed.

Lemma get_value_calibrated_witness :
  _top (snd (get_values [0; 1023] (AnalogReader_new 1 1023))) = 1023 /\
  _min (snd (get_values [0; 1023] (AnalogReader_new 1 1023))) = 0 /\
  _max (snd (get_values [0; 1023] (AnalogReader_new 1 1023))) = 1023 /\
  0 <= 417 <= 1023 /\
  fst (get_value 417 (snd (get_values [0; 1023] (AnalogReader_new 1 1023))))
    = 417.
Proof.
  split; [reflexivity |]. split; [reflexivity |]. split; [reflexivity |].
  split; [lia |].
  rewrite (get_value_calibrated 417
             (snd (get_values [0; 1023] (AnalogReader_new 1 1023))));
    [reflexivity | reflexivity | reflexivity | reflexivity | lia].
Defined.

(** ** The settings of a run *)

Lemma get_settings_fields (ms cs : Z) (sr cr : AnalogReader) :
  get_settings ms cs sr cr =
    ({| steps_direction := direction_of (fst (get_value ms sr));
        steps_speed := speed_of (fst (get_value ms sr));
        color_direction := direction_of (fst (get_value cs cr));
        color_speed := speed_of (fst (get_value cs cr)) |},
     snd (get_value ms sr), snd (get_value cs cr)).
Proof.
  unfold get_settings, direction_of, speed_of.
  destruct (get_value ms sr) as [movement sr'].
  destruct (get_value cs cr) as [color cr']. cbn [fst snd].
  destruct (set_direction_and_speed movement) as [sd ss].
  destruct (set_direction_and_speed color) as [cd cs']. reflexivity.
Qed.

(** The decoder on [0, 1023]: the direction is -1, 0 or 1, it is 0
    exactly when the speed is 0, and a speed that is not 0 is at least
    32 and at most 512. *)
Lemma decode_shape (v : Z) :
  0 <= v <= 1023 ->
  (direction_of v = -1 \/ direction_of v = 0 \/ direction_of v = 1) /\
  (direction_of v = 0 <-> speed_of v = 0) /\
  (speed_of v = 0 \/ 32 <= speed_of v <= 512).
Proof.
  intros H. decode_regions v H; repeat split; intros; lia.
Qed.

(** X6.  With two readers of span 1023 and raw samples in [0, 1023],
    the settings of a run are well formed: each direction is -1, 0 or
    1, a direction is 0 exactly when its speed is 0, and a speed is 0
    or between 32 and 512.  Each reader is updated by its own sample
    only and keeps its bounds within the raw range. *)
Theorem get_settings_well_formed (ms cs : Z) (sr cr : AnalogReader) :
  reader_ok sr -> reader_ok cr ->
  0 <= ms <= 1023 -> 0 <= cs <= 1023 ->
  let settings := fst (fst (get_settings ms cs sr cr)) in
  let sr' := snd (fst (get_settings ms cs sr cr)) in
  let cr' := snd (get_settings ms cs sr cr) in
  (steps_direction settings = -1 \/ steps_direction settings = 0 \/
   steps_direction settings = 1) /\
  (steps_direction settings = 0 <-> steps_speed settings = 0) /\
  (steps_speed settings = 0 \/ 32 <= steps_speed settings <= 512) /\
  (color_direction settings = -1 \/ color_direction settings = 0 \/
   color_direction settings = 1) /\
  (color_direction settings = 0 <-> color_speed settings = 0) /\
  (color_speed settings = 0 \/ 32 <= color_speed settings <= 512) /\
  sr' = snd (get_value ms sr) /\ cr' = snd (get_value cs cr) /\
  reader_ok sr' /\ reader_ok cr'.
Proof.
  intros Hsr Hcr Hms Hcs. rewrite get_settings_fields.
  cbn [fst snd steps_direction steps_speed color_direction color_speed].
  destruct (get_value_step ms sr Hsr Hms) as (_ & Hm & Hsr').
  destruct (get_value_step cs cr Hcr Hcs) as (_ & Hc & Hcr').
  destruct (decode_shape _ Hm) as (A1 & A2 & A3).
  destruct (decode_shape _ Hc) as (B1 & B2 & B3).
  repeat split; try assumption; try apply A2; try apply B2;
    try apply Hsr'; try apply Hcr'.
Qed.

Lemma get_settings_well_formed_witness :
  let sr := AnalogReader_new 1 1023 in
  let cr := AnalogReader_new 0 1023 in
  reader_ok sr /\ reader_ok cr /\ 0 <= 200 <= 1023 /\ 0 <= 800 <= 1023 /\
  reader_ok (snd (fst (get_settings 200 800 sr cr))) /\
  reader_ok (snd (get_settings 200 800 sr cr)).
Proof.
  intros sr cr.
  pose proof (reader_ok_new 1) as Hsr. pose proof (reader_ok_new 0) as Hcr.
  split; [exact Hsr |]. split; [exact Hcr |].
  split; [lia |]. split; [lia |].
  destruct (get_settings_well_formed 200 800 sr cr Hsr Hcr
              ltac:(lia) ltac:(lia))
    as (_ & _ & _ & _ & _ & _ & _ & _ & H1 & H2).
  split; [exact H1 | exact H2].
Defined.

(** ** The trigger: invariant and changing levels *)

(** X7.  Whatever the trigger, provided its counter is a [uint32_t]:
    after a call of [tick] the counter is again a [uint32_t], it is 0
    or below the level, the level is unchanged, and a call that fires
    leaves the counter at 0. *)
Theorem tick_counter_below_level (t : CountTrigger) :
  0 <= _counter t < 4294967296 ->
  let t' := snd (tick t) in
  0 <= _counter t' < 4294967296 /\
  (_counter t' = 0 \/ _counter t' < _level t') /\
  _level t' = _level t /\
  (fst (tick t) = true -> _counter t' = 0).
Proof.
  intros Hc. unfold tick.
  pose proof (Z.mod_pos_bound (_counter t + 1) 4294967296 ltac:(lia)) as Hw.
  fold (uint32_wrap (_counter t + 1)) in Hw.
  destruct (Z.geb_spec (uint32_wrap (_counter t + 1)) (_level t)) as [H | H];
    cbn [fst snd _counter _level].
  - repeat split; try lia; try (left; reflexivity).
  - repeat split; try lia; try discriminate.
Qed.

Lemma tick_counter_below_level_witness :
  0 <= _counter (mkCountTrigger 4294967295 7) < 4294967296 /\
  _counter (snd (tick (mkCountTrigger 4294967295 7))) = 0 /\
  fst (tick (mkCountTrigger 4294967295 7)) = false.
Proof.
  split; [cbn; lia |]. split; [| reflexivity].
  destruct (tick_counter_below_level (mkCountTrigger 4294967295 7)
              ltac:(cbn; lia)) as (_ & [H | H] & _).
  - exact H.
  - reflexivity.
Defined.

(** After a call that fires, a call with a level from 2 on does not. *)
Lemma tick_after_fire (level : Z) (t : CountTrigger) :
  2 <= level < 4294967296 ->
  fst (tick t) = true ->
  fst (tick (set_trigger_level level (snd (tick t)))) = false.
Proof.
  intros HL Hfired. unfold tick in *.
  destruct (uint32_wrap (_counter t + 1) >=? _level t);
    [| discriminate Hfired].
  cbn [fst snd set_trigger_level _counter _level].
  rewrite (uint32_wrap_small level) by lia.
  change (uint32_wrap (0 + 1)) with 1.
  destruct (Z.geb_spec 1 level); [lia | reflexivity].
Qed.

(** X8.  The trigger never fires at two calls in a row when the level
    set before the second call is at least 2: after a call that fires,
    the next call returns false. *)
Theorem tick_not_twice_in_a_row (level : Z) (t : CountTrigger) :
  2 <= level < 4294967296 ->
  fst (tick t) = true ->
  fst (tick (set_trigger_level level (snd (tick t)))) = false.
Proof. exact (tick_after_fire level t). Qed.

Lemma tick_not_twice_in_a_row_witness :
  2 <= 2 < 4294967296 /\
  fst (tick (mkCountTrigger 1 2)) = true /\
  fst (tick (set_trigger_level 2 (snd (tick (mkCountTrigger 1 2))))) = false.
Proof.
  split; [lia |]. split; [reflexivity |].
  apply (tick_not_twice_in_a_row 2 (mkCountTrigger 1 2)); [lia | reflexivity].
Defined.

Lemma tick_levels_cons (level : Z) (levels : list Z) (t : CountTrigger) :
  fst (tick_levels (level :: levels) t) =
    fst (tick (set_trigger_level level t)) ::
    fst (tick_levels levels (snd (tick (set_trigger_level level t)))).
Proof.
  cbn [tick_levels]. destruct (tick (set_trigger_level level t)) as [f t1].
  cbn [fst snd]. destruct (tick_levels levels t1) as [fs t2]. reflexivity.
Qed.

(** X9.  A trigger whose level is set anew before every call, as [loop]
    does, fires within [M] calls when no level exceeds [M]: if the
    counter is below [M] and the calls are enough to bring it to [M],
    one of them returns true. *)
Theorem tick_levels_fires (M : Z) (levels : list Z) (t : CountTrigger) :
  Forall (fun level => 0 <= level <= M) levels ->
  0 <= _counter t < M ->
  M <= _counter t + Z.of_nat (length levels) ->
  M < 4294967296 ->
  In true (fst (tick_levels levels t)).
Proof.
  revert t. induction levels as [| level levels IH]; intros t HL Hc Hlen HM.
  - cbn [length] in Hlen. lia.
  - apply Forall_cons in HL. destruct HL as [Hlevel Hrest].
    rewrite tick_levels_cons.
    assert (E : tick (set_trigger_level level t) =
                if _counter t + 1 >=? level
                then (true, {| _counter := 0; _level := level |})
                else (false, {| _counter := _counter t + 1;
                                _level := level |})).
    { unfold tick, set_trigger_level. cbn [_counter _level].
      rewrite (uint32_wrap_small level) by lia.
      rewrite (uint32_wrap_small (_counter t + 1)) by lia. reflexivity. }
    rewrite E.
    destruct (Z.geb_spec (_counter t + 1) level) as [Hge | Hlt];
      cbn [fst snd].
    + left. reflexivity.
    + right. apply IH; cbn [_counter]; try assumption; try lia.
      cbn [length] in Hlen. lia.
Qed.

Lemma tick_levels_fires_witness :
  Forall (fun level => 0 <= level <= 4) [4; 3; 4; 2] /\
  0 <= _counter CountTrigger_new < 4 /\
  4 <= _counter CountTrigger_new + Z.of_nat (length [4; 3; 4; 2]) /\
  4 < 4294967296 /\
  In true (fst (tick_levels [4; 3; 4; 2] CountTrigger_new)).
Proof.
  assert (H : Forall (fun level => 0 <= level <= 4) [4; 3; 4; 2])
    by (repeat constructor; lia).
  split; [exact H |]. split; [cbn; lia |]. split; [cbn; lia |].
  split; [lia |].
  apply (tick_levels_fires 4 [4; 3; 4; 2] CountTrigger_new H);
    cbn; lia.
Defined.

(** The run above, and a run in which a lowered level makes the trigger
    fire early. *)
Example tick_levels_run :
  fst (tick_levels [4; 3; 4; 2] CountTrigger_new)
    = [false; false; false; true] /\
  fst (tick_levels [4; 4; 2; 4] CountTrigger_new)
    = [false; false; true; false].
Proof. split; reflexivity. Qed.

(** ** Steps: there and back, and around the strip *)

Lemma mod_succ_pred (x n : Z) :
  0 < n -> 0 <= x < n ->
  ((x + 1) mod n - 1) mod n = x /\ ((x - 1) mod n + 1) mod n = x.
Proof.
  intros Hn Hx. split.
  - rewrite Zminus_mod_idemp_l.
    replace (x + 1 - 1) with x by lia. apply Z.mod_small. lia.
  - rewrite Zplus_mod_idemp_l.
    replace (x - 1 + 1) with x by lia. apply Z.mod_small. lia.
Qed.

Lemma state_eq (s1 s2 : State) :
  start_led s1 = start_led s2 -> color_index s1 = color_index s2 -> s1 = s2.
Proof. destruct s1, s2. cbn. congruence. Qed.

(** X10.  On a state whose indices are within the strip and the window,
    a step forwards followed by a step backwards, or a step backwards
    followed by a step forwards, leads back to the same state, for the
    LEDs and for the colors alike, also across the ends. *)
Theorem step_there_and_back (forwards backwards : Settings) (s : State) :
  0 <= start_led s < NUM_LEDS ->
  0 <= color_index s < NUM_RAINBOW_LEDS ->
  0 < steps_direction forwards -> steps_direction backwards < 0 ->
  0 < color_direction forwards -> color_direction backwards < 0 ->
  step_leds backwards (step_leds forwards s) = s /\
  step_leds forwards (step_leds backwards s) = s /\
  step_color backwards (step_color forwards s) = s /\
  step_color forwards (step_color backwards s) = s.
Proof.
  intros Hs Hc Hf Hb Hcf Hcb.
  assert (F1 : (steps_direction forwards >? 0) = true)
    by (destruct (Z.gtb_spec (steps_direction forwards) 0); [reflexivity | lia]).
  assert (B1 : (steps_direction backwards >? 0) = false)
    by (destruct (Z.gtb_spec (steps_direction backwards) 0); [lia | reflexivity]).
  assert (B2 : (steps_direction backwards <? 0) = true)
    by (apply Z.ltb_lt; lia).
  assert (F3 : (color_direction forwards >? 0) = true)
    by (destruct (Z.gtb_spec (color_direction forwards) 0); [reflexivity | lia]).
  assert (B3 : (color_direction backwards >? 0) = false)
    by (destruct (Z.gtb_spec (color_direction backwards) 0); [lia | reflexivity]).
  assert (B4 : (color_direction backwards <? 0) = true)
    by (apply Z.ltb_lt; lia).
  pose proof (step_leds_range forwards s Hs) as [Rf Cf].
  pose proof (step_leds_range backwards s Hs) as [Rb Cb].
  pose proof (step_color_range forwards s Hc) as [Rcf Scf].
  pose proof (step_color_range backwards s Hc) as [Rcb Scb].
  destruct (mod_succ_pred (start_led s) NUM_LEDS ltac:(reflexivity) Hs)
    as [L1 L2].
  destruct (mod_succ_pred (color_index s) NUM_RAINBOW_LEDS
              ltac:(reflexivity) Hc) as [C1 C2].
  repeat split; apply state_eq.
  - rewrite step_leds_mod by assumption. rewrite B1, B2.
    rewrite step_leds_mod by assumption. rewrite F1. exact L1.
  - rewrite (proj2 (step_leds_range backwards _ Rf)). exact Cf.
  - rewrite step_leds_mod by assumption. rewrite F1.
    rewrite step_leds_mod by assumption. rewrite B1, B2. exact L2.
  - rewrite (proj2 (step_leds_range forwards _ Rb)). exact Cb.
  - rewrite (proj2 (step_color_range backwards _ Rcf)). exact Scf.
  - rewrite step_color_mod by assumption. rewrite B3, B4.
    rewrite step_color_mod by assumption. rewrite F3. exact C1.
  - rewrite (proj2 (step_color_range forwards _ Rcb)). exact Scb.
  - rewrite step_color_mod by assumption. rewrite F3.
    rewrite step_color_mod by assumption. rewrite B3, B4. exact C2.
Qed.

Lemma step_there_and_back_witness :
  let forwards := mkSettings 1 40 1 40 in
  let backwards := mkSettings (-1) 40 (-1) 40 in
  0 <= start_led (mkState 143 0) < NUM_LEDS /\
  0 <= color_index (mkState 143 0) < NUM_RAINBOW_LEDS /\
  step_leds backwards (step_leds forwards (mkState 143 0)) = mkState 143 0 /\
  step_color forwards (step_color backwards (mkState 143 0)) = mkState 143 0.
Proof.
  intros forwards backwards.
  assert (Hs : 0 <= start_led (mkState 143 0) < NUM_LEDS)
    by (cbn; unfold NUM_LEDS; lia).
  assert (Hc : 0 <= color_index (mkState 143 0) < NUM_RAINBOW_LEDS)
    by (cbn; unfold NUM_RAINBOW_LEDS; lia).
  split; [exact Hs |]. split; [exact Hc |].
  destruct (step_there_and_back forwards backwards (mkState 143 0) Hs Hc
              ltac:(cbn; lia) ltac:(cbn; lia) ltac:(cbn; lia) ltac:(cbn; lia))
    as (H1 & _ & _ & H4).
  split; [exact H1 | exact H4].
Defined.

(** X11.  From a state whose indices are within the strip and the
    window, [n] steps in a direction move the leading index by [n]
    modulo [NUM_LEDS], forwards or backwards, and [n] steps of the
    colors move the color index by [n] modulo [NUM_RAINBOW_LEDS]; so
    144 steps of the LEDs and 12 steps of the colors lead back to the
    same index. *)
Theorem steps_move_by_n (settings : Settings) (s : State) (n : nat) :
  0 <= start_led s < NUM_LEDS ->
  0 <= color_index s < NUM_RAINBOW_LEDS ->
  start_led (Nat.iter n (step_leds settings) s) =
    (if steps_direction settings >? 0
     then (start_led s + Z.of_nat n) mod NUM_LEDS
     else if steps_direction settings <? 0
     then (start_led s - Z.of_nat n) mod NUM_LEDS
     else start_led s) /\
  color_index (Nat.iter n (step_color settings) s) =
    (if color_direction settings >? 0
     then (color_index s + Z.of_nat n) mod NUM_RAINBOW_LEDS
     else if color_direction settings <? 0
     then (color_index s - Z.of_nat n) mod NUM_RAINBOW_LEDS
     else color_index s) /\
  (steps_direction settings <> 0 ->
   start_led (Nat.iter 144 (step_leds settings) s) = start_led s) /\
  (color_direction settings <> 0 ->
   color_index (Nat.iter 12 (step_color settings) s) = color_index s).
Proof.
  intros Hs Hc.
  assert (HL : forall k,
    0 <= start_led (Nat.iter k (step_leds settings) s) < NUM_LEDS /\
    start_led (Nat.iter k (step_leds settings) s) =
      (if steps_direction settings >? 0
       then (start_led s + Z.of_nat k) mod NUM_LEDS
       else if steps_direction settings <? 0
       then (start_led s - Z.of_nat k) mod NUM_LEDS
       else start_led s)).
  { induction k as [| k [IHr IHe]].
    - cbn [Nat.iter nat_rect]. split; [exact Hs |].
      rewrite Z.add_0_r, Z.sub_0_r, Z.mod_small by exact Hs.
      destruct (steps_direction settings >? 0);
        [| destruct (steps_direction settings <? 0)]; reflexivity.
    - rewrite Nat.iter_succ.
      split; [apply step_leds_range; exact IHr |].
      rewrite step_leds_mod by exact IHr. rewrite IHe.
      rewrite Nat2Z.inj_succ. unfold NUM_LEDS.
      destruct (steps_direction settings >? 0).
      + rewrite Zplus_mod_idemp_l. f_equal. lia.
      + destruct (steps_direction settings <? 0); [| reflexivity].
        rewrite Zminus_mod_idemp_l. f_equal. lia. }
  assert (HC : forall k,
    0 <= color_index (Nat.iter k (step_color settings) s)
      < NUM_RAINBOW_LEDS /\
    color_index (Nat.iter k (step_color settings) s) =
      (if color_direction settings >? 0
       then (color_index s + Z.of_nat k) mod NUM_RAINBOW_LEDS
       else if color_direction settings <? 0
       then (color_index s - Z.of_nat k) mod NUM_RAINBOW_LEDS
       else color_index s)).
  { induction k as [| k [IHr IHe]].
    - cbn [Nat.iter nat_rect]. split; [exact Hc |].
      rewrite Z.add_0_r, Z.sub_0_r, Z.mod_small by exact Hc.
      destruct (color_direction settings >? 0);
        [| destruct (color_direction settings <? 0)]; reflexivity.
    - rewrite Nat.iter_succ.
      split; [apply step_color_range; exact IHr |].
      rewrite step_color_mod by exact IHr. rewrite IHe.
      rewrite Nat2Z.inj_succ. unfold NUM_RAINBOW_LEDS.
      destruct (color_direction settings >? 0).
      + rewrite Zplus_mod_idemp_l. f_equal. lia.
      + destruct (color_direction settings <? 0); [| reflexivity].
        rewrite Zminus_mod_idemp_l. f_equal. lia. }
  split; [apply HL |]. split; [apply HC |]. split.
  - intros _. rewrite (proj2 (HL 144%nat)). unfold NUM_LEDS in *.
    change (Z.of_nat 144) with (1 * 144).
    destruct (steps_direction settings >? 0).
    + rewrite Z.mod_add by lia. apply Z.mod_small. lia.
    + destruct (steps_direction settings <? 0); [| reflexivity].
      replace (start_led s - 1 * 144) with (start_led s + (-1) * 144) by lia.
      rewrite Z.mod_add by lia. apply Z.mod_small. lia.
  - intros _. rewrite (proj2 (HC 12%nat)). unfold NUM_RAINBOW_LEDS in *.
    change (Z.of_nat 12) with (1 * 12).
    destruct (color_direction settings >? 0).
    + rewrite Z.mod_add by lia. apply Z.mod_small. lia.
    + destruct (color_direction settings <? 0); [| reflexivity].
      replace (color_index s - 1 * 12) with (color_index s + (-1) * 12)
        by lia.
      rewrite Z.mod_add by lia. apply Z.mod_small. lia.
Qed.

Lemma steps_move_by_n_witness :
  0 <= start_led (mkState 100 7) < NUM_LEDS /\
  0 <= color_index (mkState 100 7) < NUM_RAINBOW_LEDS /\
  start_led (Nat.iter 50 (step_leds (mkSettings 1 40 (-1) 40)) (mkState 100 7))
    = 6 /\
  color_index
    (Nat.iter 50 (step_color (mkSettings 1 40 (-1) 40)) (mkState 100 7))
    = 5.
Proof.
  assert (Hs : 0 <= start_led (mkState 100 7) < NUM_LEDS)
    by (cbn; unfold NUM_LEDS; lia).
  assert (Hc : 0 <= color_index (mkState 100 7) < NUM_RAINBOW_LEDS)
    by (cbn; unfold NUM_RAINBOW_LEDS; lia).
  split; [exact Hs |]. split; [exact Hc |].
  destruct (steps_move_by_n (mkSettings 1 40 (-1) 40) (mkState 100 7) 50
              Hs Hc) as (H1 & H2 & _).
  split; [rewrite H1 | rewrite H2]; reflexivity.
Defined.

(** ** The window of a leading index *)

(** An LED of the window is at the offset [(p - start) mod 144] from
    the leading index, and an LED outside is at no offset below 12. *)
Lemma in_window_offset (start p : Z) :
  0 <= start < 144 -> 0 <= p < 144 ->
  if in_window start p
  then 0 <= (p - start) mod 144 < 12 /\
       p = (start + (p - start) mod 144) mod 144
  else forall i, 0 <= i < 12 -> p <> (start + i) mod 144.
Proof.
  intros Hs Hp. unfold in_window, NUM_LEDS, NUM_RAINBOW_LEDS.
  pose proof (Z.mod_pos_bound (p - start) 144 ltac:(lia)) as Hm.
  destruct (Z.ltb_spec ((p - start) mod 144) 12) as [Hin | Hout].
  - split; [lia |].
    rewrite Zplus_mod_idemp_r.
    replace (start + (p - start)) with p by lia.
    symmetry. apply Z.mod_small. lia.
  - intros i Hi E. apply (Z.lt_irrefl 12).
    apply Z.le_lt_trans with ((p - start) mod 144); [exact Hout |].
    rewrite E, Zminus_mod_idemp_l.
    replace (start + i - start) with i by lia.
    rewrite Z.mod_small; lia.
Qed.

(** ** The parts of a run *)

Lemma loop_parts (pow : R -> R -> R) (round : R -> R)
  (movement_sample color_sample : Z) (w : World) :
  let settings :=
    fst (fst (get_settings movement_sample color_sample
                (steps_reader w) (color_reader w))) in
  let st :=
    tick (set_trigger_level
            (reverse_and_expo pow round (steps_speed settings))
            (steps_trigger w)) in
  let ct :=
    tick (set_trigger_level
            (reverse_and_expo pow round (color_speed settings))
            (color_trigger w)) in
  let w' := loop pow round movement_sample color_sample w in
  steps_trigger w' = snd st /\ color_trigger w' = snd ct /\
  state w' =
    (let s := if fst st then step_leds settings (state w) else state w in
     if fst ct then step_color settings s else s) /\
  steps_reader w' = snd (get_value movement_sample (steps_reader w)) /\
  color_reader w' = snd (get_value color_sample (color_reader w)).
Proof.
  unfold loop. rewrite get_settings_fields. cbn [fst snd].
  destruct (tick (set_trigger_level _ (steps_trigger w))) as [f1 t1].
  destruct (tick (set_trigger_level _ (color_trigger w))) as [f2 t2].
  cbn. repeat split.
Qed.

Lemma step_leds_still (settings : Settings) (s : State) :
  steps_direction settings = 0 -> step_leds settings s = s.
Proof. intros E. unfold step_leds. rewrite E. reflexivity. Qed.

Lemma step_color_still (settings : Settings) (s : State) :
  color_direction settings = 0 -> step_color settings s = s.
Proof. intros E. unfold step_color. rewrite E. reflexivity. Qed.

(** A run draws the worm on a strip that was dark outside the old
    window. *)
Lemma loop_shows_worm (pow : R -> R -> R) (round : R -> R)
  (movement_sample color_sample : Z) (w : World) :
  world_ok w -> dark_outside w ->
  shows_worm (loop pow round movement_sample color_sample w).
Proof.
  intros Hw Hdark.
  pose proof (world_ok_loop pow round movement_sample color_sample w Hw)
    as Hw'.
  destruct (loop_fields pow round movement_sample color_sample w)
    as (_ & Eleds & Eg & Er & Eb).
  set (w' := loop pow round movement_sample color_sample w) in *.
  destruct Hw as (Hs & Hc & Hlen). destruct Hw' as (Hs' & Hc' & Hlen').
  unfold shows_worm, dark_outside in *.
  unfold NUM_LEDS, NUM_RAINBOW_LEDS in *.
  change (Z.to_nat 144) with 144%nat in *.
  destruct (turn_off_leds_cells (state w) (leds w) Hs Hlen)
    as (Lc & Cin & Cout).
  destruct (set_led_colors_cells (green w) (red w) (blue w) (state w')
              (turn_off_leds (state w) (leds w)) Hs' Hc' Lc)
    as (Ld & Din & Dout).
  rewrite <- Eleds in Ld, Din, Dout. rewrite Eg, Er, Eb.
  intros p Hp.
  pose proof (in_window_offset (start_led (state w')) p Hs' Hp) as Hnew.
  unfold in_window, NUM_LEDS, NUM_RAINBOW_LEDS in Hnew |- *.
  destruct ((p - start_led (state w')) mod 144 <? 12).
  - destruct Hnew as [Hi Ep]. rewrite Ep at 1. apply Din. exact Hi.
  - rewrite (Dout p Hnew).
    pose proof (in_window_offset (start_led (state w)) p Hs Hp) as Hold.
    pose proof (Hdark p Hp) as Hd.
    unfold in_window, NUM_LEDS, NUM_RAINBOW_LEDS in Hold, Hd.
    destruct ((p - start_led (state w)) mod 144 <? 12).
    + destruct Hold as [Hj Ep]. rewrite Ep. apply Cin. exact Hj.
    + rewrite (Cout p Hold). apply Hd. reflexivity.
Qed.

Lemma shows_worm_dark_outside (w : World) : shows_worm w -> dark_outside w.
Proof.
  intros H p Hp Hout. rewrite (H p Hp), Hout. reflexivity.
Qed.

(** After [setup] the whole strip is dark. *)
Lemma dark_outside_setup : dark_outside (setup World_init).
Proof.
  intros p Hp _.
  change (leds (setup World_init)) with (repeat Black 144).
  unfold aget, NUM_LEDS in *. destruct (Z.ltb_spec p 0); [reflexivity |].
  destruct (repeat Black 144 !! Z.to_nat p) as [c |] eqn:E; [| reflexivity].
  apply list_elem_of_lookup_2 in E. apply list_elem_of_In in E.
  apply repeat_spec in E. exact E.
Qed.

(** ** The strip shows the worm and nothing else *)

Lemma loops_shows_worm (pow : R -> R -> R) (round : R -> R)
  (samples : list (Z * Z)) (w : World) :
  world_ok w -> dark_outside w -> samples <> [] ->
  shows_worm (loops pow round samples w).
Proof.
  revert w. induction samples as [| [m c] samples IH]; intros w Hw Hd Hne.
  - congruence.
  - cbn [loops].
    pose proof (world_ok_loop pow round m c w Hw) as Hw1.
    pose proof (loop_shows_worm pow round m c w Hw Hd) as Hs1.
    destruct samples as [| x samples]; [exact Hs1 |].
    apply IH; [exact Hw1 | apply shows_worm_dark_outside; exact Hs1 |
               discriminate].
Qed.

Lemma loops_tables (pow : R -> R -> R) (round : R -> R)
  (samples : list (Z * Z)) (w : World) :
  green (loops pow round samples w) = green w /\
  red (loops pow round samples w) = red w /\
  blue (loops pow round samples w) = blue w.
Proof.
  revert w. induction samples as [| [m c] samples IH]; intros w.
  - repeat split.
  - cbn [loops]. destruct (IH (loop pow round m c w)) as (G & Rd & B).
    destruct (loop_fields pow round m c w) as (_ & _ & Eg & Er & Eb).
    rewrite G, Rd, B. repeat split; assumption.
Qed.

(** X12.  After one run of [loop] or more, on a world whose strip was
    dark outside the window (as it is after [setup]), whatever the
    samples and the floating point: the strip shows the window of 12
    LEDs at the leading index, colored from the tables at the color
    index, and every other LED is off, so the worm leaves no trail; the
    indices stay within the strip and the window; and the color tables
    are never modified. *)
Theorem loops_show_the_worm (pow : R -> R -> R) (round : R -> R)
  (samples : list (Z * Z)) (w : World) :
  world_ok w -> dark_outside w -> samples <> [] ->
  let w' := loops pow round samples w in
  shows_worm w' /\ world_ok w' /\
  green w' = green w /\ red w' = red w /\ blue w' = blue w.
Proof.
  intros Hw Hd Hne w'. split; [| split].
  - apply loops_shows_worm; assumption.
  - apply world_ok_loops. exact Hw.
  - apply loops_tables.
Qed.

Lemma loops_show_the_worm_witness :
  let w := setup World_init in
  world_ok w /\ dark_outside w /\ [(0, 1023); (100, 900)] <> [] /\
  shows_worm (loops Rpower id [(0, 1023); (100, 900)] w).
Proof.
  intros w.
  split; [exact world_ok_setup |]. split; [exact dark_outside_setup |].
  split; [discriminate |].
  exact (proj1 (loops_show_the_worm Rpower id [(0, 1023); (100, 900)] w
                  world_ok_setup dark_outside_setup ltac:(discriminate))).
Defined.

(** ** Pots at rest *)

Lemma list_eq_aget {A} (d : A) (l1 l2 : list A) :
  length l1 = length l2 ->
  (forall p, 0 <= p < Z.of_nat (length l1) -> aget d l1 p = aget d l2 p) ->
  l1 = l2.
Proof.
  intros Hlen H. apply list_eq. intros i.
  destruct (Nat.lt_ge_cases i (length l1)) as [Hi | Hi].
  - specialize (H (Z.of_nat i) ltac:(lia)). unfold aget in H.
    destruct (Z.ltb_spec (Z.of_nat i) 0); [lia |].
    rewrite Nat2Z.id in H.
    destruct (lookup_lt_is_Some_2 l1 i Hi) as [x1 E1].
    destruct (lookup_lt_is_Some_2 l2 i ltac:(lia)) as [x2 E2].
    rewrite E1, E2 in *. cbn in H. congruence.
  - rewrite !lookup_ge_None_2 by lia. reflexivity.
Qed.

(** X13.  When both pots decode to direction 0 (they rest in the dead
    zone), a run of [loop] leaves the state as it is, whether or not
    the triggers fire; and if the strip showed the worm before the run,
    it shows the same frame after it. *)
Theorem loop_at_rest (pow : R -> R -> R) (round : R -> R)
  (movement_sample color_sample : Z) (w : World) :
  direction_of (fst (get_value movement_sample (steps_reader w))) = 0 ->
  direction_of (fst (get_value color_sample (color_reader w))) = 0 ->
  let w' := loop pow round movement_sample color_sample w in
  state w' = state w /\
  (world_ok w -> shows_worm w -> leds w' = leds w).
Proof.
  intros Hsd Hcd w'.
  destruct (loop_parts pow round movement_sample color_sample w)
    as (_ & _ & Est & _).
  fold w' in Est. rewrite get_settings_fields in Est. cbn [fst snd] in Est.
  assert (E : state w' = state w).
  { rewrite Est. cbv zeta.
    rewrite step_leds_still by exact Hsd.
    rewrite step_color_still by exact Hcd.
    destruct (fst (tick _)); destruct (fst (tick _)); reflexivity. }
  split; [exact E |]. intros Hw Hshow.
  pose proof (world_ok_loop pow round movement_sample color_sample w Hw)
    as Hw'.
  pose proof (loop_shows_worm pow round movement_sample color_sample w Hw
                (shows_worm_dark_outside w Hshow)) as Hshow'.
  destruct (loop_fields pow round movement_sample color_sample w)
    as (_ & _ & Eg & Er & Eb).
  fold w' in Hw', Hshow', Eg, Er, Eb.
  destruct Hw as (_ & _ & Hlen). destruct Hw' as (_ & _ & Hlen').
  apply (list_eq_aget Black); [congruence |].
  intros p Hp. unfold shows_worm in Hshow, Hshow'.
  rewrite Hlen' in Hp. unfold NUM_LEDS in Hshow, Hshow'.
  change (Z.of_nat (Z.to_nat NUM_LEDS)) with 144 in Hp.
  rewrite (Hshow' p Hp), (Hshow p Hp), E, Eg, Er, Eb. reflexivity.
Qed.

Lemma loop_at_rest_witness :
  let w := loop Rpower id 1023 1023 (loop Rpower id 0 0 (setup World_init)) in
  direction_of (fst (get_value 500 (steps_reader w))) = 0 /\
  direction_of (fst (get_value 512 (color_reader w))) = 0 /\
  state (loop Rpower id 500 512 w) = state w.
Proof.
  intros w.
  destruct (loop_parts Rpower id 0 0 (setup World_init))
    as (_ & _ & _ & Esr1 & Ecr1).
  destruct (loop_parts Rpower id 1023 1023
              (loop Rpower id 0 0 (setup World_init)))
    as (_ & _ & _ & Esr & Ecr).
  fold w in Esr, Ecr. rewrite Esr1 in Esr. rewrite Ecr1 in Ecr.
  assert (H1 : direction_of (fst (get_value 500 (steps_reader w))) = 0)
    by (rewrite Esr; reflexivity).
  assert (H2 : direction_of (fst (get_value 512 (color_reader w))) = 0)
    by (rewrite Ecr; reflexivity).
  split; [exact H1 |]. split; [exact H2 |].
  exact (proj1 (loop_at_rest Rpower id 500 512 w H1 H2)).
Defined.

(** ** The first run *)

(** X14.  In the first run after the readers are built, whatever the
    positions of the pots, both settings are direction -1 at speed 511:
    a reader that has seen one sample returns its top, which decodes as
    a pot fully turned. *)
Theorem first_run_settings (ms cs pin1 pin2 : Z) :
  0 <= ms <= 1023 -> 0 <= cs <= 1023 ->
  fst (fst (get_settings ms cs (AnalogReader_new pin1 1023)
              (AnalogReader_new pin2 1023)))
    = mkSettings (-1) 511 (-1) 511.
Proof.
  intros Hm Hc. rewrite get_settings_fields. cbn [fst snd].
  destruct (get_value_same ms (AnalogReader_new pin1 1023) Hm
              ltac:(left; reflexivity)) as (E1 & _).
  destruct (get_value_same cs (AnalogReader_new pin2 1023) Hc
              ltac:(left; reflexivity)) as (E2 & _).
  rewrite E1, E2. reflexivity.
Qed.

Lemma first_run_settings_witness :
  0 <= 512 <= 1023 /\ 0 <= 0 <= 1023 /\
  fst (fst (get_settings 512 0 (steps_reader World_init)
              (color_reader World_init)))
    = mkSettings (-1) 511 (-1) 511.
Proof.
  split; [lia |]. split; [lia |].
  apply (first_run_settings 512 0 1 0); lia.
Defined.

(** ** The strip after setup *)

Lemma aget_repeat {A} (d : A) (n : nat) (p : Z) : aget d (repeat d n) p = d.
Proof.
  unfold aget. destruct (p <? 0); [reflexivity |].
  destruct (repeat d n !! Z.to_nat p) as [c |] eqn:E; [| reflexivity].
  apply list_elem_of_lookup_2 in E. apply list_elem_of_In in E.
  apply repeat_spec in E. exact E.
Qed.

(** X15.  [setup] turns off every LED of a strip of 144, whatever it
    showed, and leaves the state, the readers and the triggers as they
    are. *)
Theorem setup_turns_strip_off (w : World) :
  length (leds w) = Z.to_nat NUM_LEDS ->
  leds (setup w) = repeat Black (Z.to_nat NUM_LEDS) /\
  state (setup w) = state w /\
  steps_reader (setup w) = steps_reader w /\
  color_reader (setup w) = color_reader w /\
  steps_trigger (setup w) = steps_trigger w /\
  color_trigger (setup w) = color_trigger w.
Proof.
  intros Hlen. unfold setup.
  destruct (for_upto (Z.to_nat NUM_RAINBOW_LEDS) (setup_colors_body 4)
              (green w, red w, blue w)) as [[g r] b].
  cbn [leds state steps_reader color_reader steps_trigger color_trigger].
  split; [| repeat split].
  change (Z.to_nat NUM_LEDS) with 144%nat in *.
  destruct (for_upto_aset Black (fun i => i) (fun _ => Black) 144 (leds w))
    as (Hl & Hin & _).
  { intros i Hi. rewrite Hlen. lia. }
  { intros i j _ _ E. exact E. }
  cbv zeta in Hl, Hin.
  apply (list_eq_aget Black).
  - rewrite Hl, Hlen, repeat_length. reflexivity.
  - intros p Hp. rewrite Hl, Hlen in Hp.
    rewrite aget_repeat. apply (Hin p). lia.
Qed.

Lemma setup_turns_strip_off_witness :
  let w := loop Rpower id 0 1023 (setup World_init) in
  length (leds w) = Z.to_nat NUM_LEDS /\
  leds (setup w) = repeat Black (Z.to_nat NUM_LEDS).
Proof.
  intros w.
  assert (H : length (leds w) = Z.to_nat NUM_LEDS)
    by (apply (world_ok_loop Rpower id 0 1023 _ world_ok_setup)).
  split; [exact H |].
  exact (proj1 (setup_turns_strip_off w H)).
Defined.

(** ** The levels of a run *)



Lemma tick_level (t : CountTrigger) : _level (snd (tick t)) = _level t.
Proof.
  unfold tick. destruct (uint32_wrap (_counter t + 1) >=? _level t);
    reflexivity.
Qed.

Section RunLevels.

(** The floating point of the board, as for the trigger level. *)
Variable pow : R -> R -> R.
Variable round : R -> R.
Hypothesis round_monotone :
  forall x y : R, (x <= y)%R -> (round x <= round y)%R.
Hypothesis round_exact :
  forall k : Z, Z.abs k <= 16777216 ->
    round (IZR k / 64) = (IZR k / 64)%R.
Hypothesis pow_accurate :
  forall x : R, (0 <= x <= 8)%R ->
    (Rabs (pow 2 x - Rpower 2 x) <= Rpower 2 x / 256)%R.

Lemma reverse_and_expo_range (speed : Z) :
  0 <= speed <= 512 -> 2 <= reverse_and_expo pow round speed <= 258.
Proof.
  intros H. unfold reverse_and_expo. cbv zeta.
  rewrite (reversed_speed speed H).
  apply (level_of_folded pow round round_monotone round_exact pow_accurate).
  lia.
Qed.

(** The level that a run sets from a sample read by a reader of span
    1023. *)
Lemma level_of_sample (sample : Z) (r : AnalogReader) :
  reader_ok r -> 0 <= sample <= 1023 ->
  2 <= reverse_and_expo pow round (speed_of (fst (get_value sample r)))
    <= 258.
Proof.
  intros Hr Hs. destruct (get_value_step sample r Hr Hs) as (_ & Hv & _).
  destruct (decode_shape _ Hv) as (_ & _ & Hsp).
  apply reverse_and_expo_range. lia.
Qed.

(** X16.  In every run of [loop] with readers of span 1023 and raw
    samples in [0, 1023], the level set on each of the two triggers is
    between 2 and 258, and the readers keep their bounds within the raw
    range, so that the same holds of the next run. *)
Theorem loop_trigger_levels (movement_sample color_sample : Z) (w : World) :
  reader_ok (steps_reader w) -> reader_ok (color_reader w) ->
  0 <= movement_sample <= 1023 -> 0 <= color_sample <= 1023 ->
  let w' := loop pow round movement_sample color_sample w in
  2 <= _level (steps_trigger w') <= 258 /\
  2 <= _level (color_trigger w') <= 258 /\
  reader_ok (steps_reader w') /\ reader_ok (color_reader w').
Proof.
  intros Hsr Hcr Hm Hc w'.
  destruct (loop_parts pow round movement_sample color_sample w)
    as (Est & Ect & _ & Esr & Ecr).
  fold w' in Est, Ect, Esr, Ecr.
  rewrite get_settings_fields in Est, Ect. cbn [fst snd] in Est, Ect.
  cbn [steps_speed color_speed] in Est, Ect.
  pose proof (level_of_sample movement_sample _ Hsr Hm) as L1.
  pose proof (level_of_sample color_sample _ Hcr Hc) as L2.
  rewrite Est, Ect, Esr, Ecr, !tick_level.
  unfold set_trigger_level. cbn [_level].
  rewrite !uint32_wrap_small by lia.
  split; [exact L1 |]. split; [exact L2 |]. split.
  - apply (get_value_step movement_sample _ Hsr Hm).
  - apply (get_value_step color_sample _ Hcr Hc).
Qed.


End RunLevels.

Lemma loop_trigger_levels_witness :
  let w := setup World_init in
  reader_ok (steps_reader w) /\ reader_ok (color_reader w) /\
  0 <= 0 <= 1023 /\ 0 <= 1023 <= 1023 /\
  2 <= _level (steps_trigger (loop Rpower id 0 1023 w)) <= 258 /\
  2 <= _level (color_trigger (loop Rpower id 0 1023 w)) <= 258.
Proof.
  intros w.
  destruct exact_floating_point as (Hmono & Hexact & Hacc).
  pose proof (reader_ok_new 1) as Hsr. pose proof (reader_ok_new 0) as Hcr.
  split; [exact Hsr |]. split; [exact Hcr |].
  split; [lia |]. split; [lia |].
  destruct (loop_trigger_levels Rpower id Hmono Hexact Hacc 0 1023 w
              Hsr Hcr ltac:(lia) ltac:(lia)) as (H1 & H2 & _).
  split; [exact H1 | exact H2].
Defined.

